(** * Sales-report date filter of the admin panel

    A shallow embedding of the date helpers of [src/pages/SalesReport.tsx]
    ([div], [jalaliToGregorian], [parseJalaliDateString], [toGregorianISO])
    and of the query-parameter construction of [ApiService.getSalesSummary],
    followed by the properties the specification states about them. *)

From Stdlib Require Import ZArith List Lia Bool.
From Stdlib Require Import Strings.String Strings.Ascii Numbers.DecimalString.
From stdpp Require Import gmap strings list fin_maps.

Open Scope Z_scope.

(** ** JavaScript numbers

    The TypeScript [number]s handled here always hold integers.  They are
    modelled as [Z]: on integers of magnitude below [2^53] the operations
    [+], [-], [*] and [%] of IEEE doubles are exact, and the truncation of a
    double quotient [a / b] is the truncated integer quotient.  The one place
    where the machine representation shows is the [| 0] of [div], which is
    the [ToInt32] conversion and wraps modulo [2^32].  The properties of the
    converter are stated for years on which every number it computes stays
    below [2^53]. *)
Module JS.

(** [x | 0] for an integral [x]: reduction into [[-2^31, 2^31)]. *)
Definition ToInt32 (x : Z) : Z := (x + 2 ^ 31) mod 2 ^ 32 - 2 ^ 31.

(** [a % b]: the remainder has the sign of the dividend. *)
Definition rem (a b : Z) : Z := Z.rem a b.

(** the truncation of [a / b] towards zero *)
Definition trunc_quot (a b : Z) : Z := Z.quot a b.

End JS.

(** ** The converter *)

(** [function div(a, b) { return (a / b) | 0; }] *)
Definition div (a b : Z) : Z := JS.ToInt32 (JS.trunc_quot a b).

(** [for (let i = 0; i < jm; ++i) j_day_no += (i < 6) ? 31 : 30;] *)
Definition add_jalali_months (jm j_day_no : Z) : Z :=
  fold_left (fun acc i => acc + (if i <? 6 then 31 else 30)) (seqZ 0 jm) j_day_no.

(** [const gdMonthDays = [31, (leap ? 29 : 28), 31, ...];] *)
Definition gdMonthDays (leap : bool) : list Z :=
  [31; (if leap then 29 else 28); 31; 30; 31; 30; 31; 31; 30; 31; 30; 31].

(** [while (gm < 12 && g_day_no >= gdMonthDays[gm]) { g_day_no -= gdMonthDays[gm]; gm++; }]
    The walk is over the remaining entries of the table: the guard [gm < 12]
    fails exactly when the twelve entries are used up. *)
Fixpoint month_walk (days : list Z) (gm g_day_no : Z) : Z * Z :=
  match days with
  | [] => (gm, g_day_no)
  | d :: rest =>
      if g_day_no >=? d then month_walk rest (gm + 1) (g_day_no - d)
      else (gm, g_day_no)
  end.

Definition jalaliToGregorian (jy jm jd : Z) : Z * Z * Z :=
  let jy := jy - 979 in
  let jm := jm - 1 in
  let jd := jd - 1 in
  let j_day_no := 365 * jy + div jy 33 * 8 + div (JS.rem jy 33 + 3) 4 in
  let j_day_no := add_jalali_months jm j_day_no in
  let j_day_no := j_day_no + jd in
  let g_day_no := j_day_no + 79 in
  let gy := 1600 + 400 * div g_day_no 146097 in
  let g_day_no := JS.rem g_day_no 146097 in
  let leap := true in
  let '(gy, g_day_no, leap) :=
    if g_day_no >=? 36525 then
      let g_day_no := g_day_no - 1 in
      let gy := gy + 100 * div g_day_no 36524 in
      let g_day_no := JS.rem g_day_no 36524 in
      if g_day_no >=? 365 then (gy, g_day_no + 1, leap) else (gy, g_day_no, false)
    else (gy, g_day_no, leap) in
  let gy := gy + 4 * div g_day_no 1461 in
  let g_day_no := JS.rem g_day_no 1461 in
  let '(gy, g_day_no, leap) :=
    if g_day_no >=? 366 then
      let leap := false in
      let g_day_no := g_day_no - 1 in
      let gy := gy + div g_day_no 365 in
      let g_day_no := JS.rem g_day_no 365 in
      (gy, g_day_no, leap)
    else (gy, g_day_no, leap) in
  let '(gm, g_day_no) := month_walk (gdMonthDays leap) 0 g_day_no in
  let gd := g_day_no + 1 in
  (gy, gm + 1, gd).

(** The two halves of [jalaliToGregorian], named so that they can be reasoned
    about separately: the Jalali day number (the value of [g_day_no] after
    [let g_day_no = j_day_no + 79]) and the walk through the Gregorian
    cycles from there on. *)
Definition jalali_g_day_no (jy jm jd : Z) : Z :=
  let jy := jy - 979 in
  let jm := jm - 1 in
  let jd := jd - 1 in
  let j_day_no := 365 * jy + div jy 33 * 8 + div (JS.rem jy 33 + 3) 4 in
  let j_day_no := add_jalali_months jm j_day_no in
  let j_day_no := j_day_no + jd in
  j_day_no + 79.

(** the century step: [if (g_day_no >= 36525) { ... }] *)
Definition century_step (gy g_day_no : Z) : Z * Z * bool :=
  if g_day_no >=? 36525 then
    let g_day_no := g_day_no - 1 in
    let gy := gy + 100 * div g_day_no 36524 in
    let g_day_no := JS.rem g_day_no 36524 in
    if g_day_no >=? 365 then (gy, g_day_no + 1, true) else (gy, g_day_no, false)
  else (gy, g_day_no, true).

(** the four-year step and the single-year step *)
Definition year_step (st : Z * Z * bool) : Z * Z * bool :=
  let '(gy, g_day_no, leap) := st in
  let gy := gy + 4 * div g_day_no 1461 in
  let g_day_no := JS.rem g_day_no 1461 in
  if g_day_no >=? 366 then
    let g_day_no := g_day_no - 1 in
    (gy + div g_day_no 365, JS.rem g_day_no 365, false)
  else (gy, g_day_no, leap).

(** the month walk and the final one-based month and day *)
Definition month_day_step (st : Z * Z * bool) : Z * Z * Z :=
  let '(gy, g_day_no, leap) := st in
  let '(gm, g_day_no) := month_walk (gdMonthDays leap) 0 g_day_no in
  (gy, gm + 1, g_day_no + 1).

Definition gregorian_of_day_no (g_day_no : Z) : Z * Z * Z :=
  let gy := 1600 + 400 * div g_day_no 146097 in
  let g_day_no := JS.rem g_day_no 146097 in
  month_day_step (year_step (century_step gy g_day_no)).

(** ** The Gregorian calendar (specification side) *)

(** divisible by 4, not by 100 unless also by 400 *)
Definition is_leap_year (y : Z) : bool :=
  (y mod 4 =? 0) && (negb (y mod 100 =? 0) || (y mod 400 =? 0)).

Definition daysInMonth (y m : Z) : Z :=
  if m =? 2 then (if is_leap_year y then 29 else 28)
  else if (m =? 4) || (m =? 6) || (m =? 9) || (m =? 11) then 30
  else 31.

Definition valid_gregorian (g : Z * Z * Z) : Prop :=
  let '(y, m, d) := g in
  1 <= m <= 12 /\ 1 <= d <= daysInMonth y m.

(** the calendar day that follows [g] *)
Definition next_day (g : Z * Z * Z) : Z * Z * Z :=
  let '(y, m, d) := g in
  if d <? daysInMonth y m then (y, m, d + 1)
  else if m <? 12 then (y, m + 1, 1)
  else (y + 1, 1, 1).

(** the declared domain of a [JalaliDate] *)
Definition jalali_domain (jy jm jd : Z) : Prop :=
  1 <= jy /\ 1 <= jm <= 12 /\ 1 <= jd <= 31.

(** the first Jalali year the port handles: the rebased year is [jy - 979] *)
Definition JALALI_EPOCH_YEAR : Z := 979.

(** the last Jalali year for which [div (jy - 979) 33] stays inside the
    32-bit range of [| 0] *)
Definition LAST_INT32_YEAR : Z := 979 + 33 * 2 ^ 31 - 1.

(** ** The reference algorithm of the specification, section 4.1

    Written from the nine steps of the specification: floor division and the
    matching modulus throughout, and the century correction taken from a
    remaining day count of 36524 on. *)
Module Spec.

Definition jalali_month_lengths : list Z :=
  [31; 31; 31; 31; 31; 31; 30; 30; 30; 30; 30; 30].

(** step 2 *)
Definition day_count (jy' : Z) : Z :=
  365 * jy' + (jy' / 33) * 8 + ((jy' mod 33) + 3) / 4.

(** step 3: the days of the full months elapsed before month [jm'] *)
Definition elapsed_month_days (jm' : Z) : Z :=
  foldr Z.add 0 (take (Z.to_nat jm') jalali_month_lengths).

(** step 9: subtract month lengths until the remainder fits the month *)
Fixpoint walk_months (lengths : list Z) (month remaining : Z) : Z * Z :=
  match lengths with
  | [] => (month, remaining)
  | len :: rest =>
      if remaining <? len then (month, remaining)
      else walk_months rest (month + 1) (remaining - len)
  end.

Definition gregorian_month_lengths (leap : bool) : list Z :=
  [31; (if leap then 29 else 28); 31; 30; 31; 30; 31; 31; 30; 31; 30; 31].

Definition convert (jalaliYear jalaliMonth jalaliDay : Z) : Z * Z * Z :=
  (* 1 *)
  let jy' := jalaliYear - 979 in
  let jm' := jalaliMonth - 1 in
  let jd' := jalaliDay - 1 in
  (* 2, 3 *)
  let dayCount := day_count jy' + elapsed_month_days jm' + jd' in
  (* 4 *)
  let dayCount := dayCount + 79 in
  (* 5 *)
  let gregYear := 1600 + 400 * (dayCount / 146097) in
  let dayCount := dayCount mod 146097 in
  (* 6 *)
  let '(gregYear, dayCount, leap) :=
    if 36524 <=? dayCount then
      let dayCount := dayCount - 1 in
      let gregYear := gregYear + 100 * (dayCount / 36524) * 1 in
      let dayCount := dayCount mod 36524 in
      if 365 <=? dayCount then (gregYear, dayCount + 1, true)
      else (gregYear, dayCount, false)
    else (gregYear, dayCount, true) in
  (* 7 *)
  let gregYear := gregYear + 4 * (dayCount / 1461) in
  let dayCount := dayCount mod 1461 in
  (* 8 *)
  let '(gregYear, dayCount, leap) :=
    if 366 <=? dayCount then
      let dayCount := dayCount - 1 in
      (gregYear + dayCount / 365, dayCount mod 365, false)
    else (gregYear, dayCount, leap) in
  (* 9 *)
  let '(month, remaining) :=
    walk_months (gregorian_month_lengths leap) 1 dayCount in
  (gregYear, month, remaining + 1).

End Spec.

(** ** JavaScript strings

    A string is its sequence of UTF-16 code units.  Every character that the
    date helpers look at (Latin and Persian digits, the separators, white
    space) is a single code unit. *)
Abbreviation code_unit := N (only parsing).
Abbreviation jsstring := (list N) (only parsing).

(** an ASCII literal as a JavaScript string *)
Definition js (s : string) : jsstring :=
  map N_of_ascii (list_ascii_of_string s).

(** [String(n)] for an integral [n] (of magnitude below [10^21]): decimal
    digits, with a leading minus sign for a negative number *)
Definition String_of_number (n : Z) : jsstring :=
  js (NilEmpty.string_of_int (Z.to_int n)).

(** the literal ['۰۱۲۳۴۵۶۷۸۹'] *)
Definition fa_digits : jsstring :=
  [0x06F0; 0x06F1; 0x06F2; 0x06F3; 0x06F4; 0x06F5; 0x06F6; 0x06F7; 0x06F8; 0x06F9]%N.

(** [s.indexOf(d)] for a one-unit [d]: the first index holding [d], or [-1] *)
Fixpoint indexOf (s : jsstring) (d : code_unit) : Z :=
  match s with
  | [] => -1
  | c :: rest =>
      if (c =? d)%N then 0
      else let i := indexOf rest d in if i <? 0 then -1 else i + 1
  end.

(** the character class [[۰-۹]] *)
Definition is_fa_digit (c : code_unit) : bool :=
  (0x06F0 <=? c)%N && (c <=? 0x06F9)%N.

(** [s.replace(/[۰-۹]/g, (d) => String('۰۱۲۳۴۵۶۷۸۹'.indexOf(d)))]:
    with the [g] flag every unit of the class is replaced by what the
    callback returns for it *)
Definition replace_fa_digits (s : jsstring) : jsstring :=
  flat_map (fun d => if is_fa_digit d then String_of_number (indexOf fa_digits d)
                     else [d]) s.

(** white space and line terminators, as [String.prototype.trim] strips them *)
Definition is_js_whitespace (c : code_unit) : bool :=
  ((c =? 0x0009) || (c =? 0x000A) || (c =? 0x000B) || (c =? 0x000C)
   || (c =? 0x000D) || (c =? 0x0020) || (c =? 0x00A0) || (c =? 0x1680)
   || ((0x2000 <=? c) && (c <=? 0x200A))
   || (c =? 0x2028) || (c =? 0x2029) || (c =? 0x202F) || (c =? 0x205F)
   || (c =? 0x3000) || (c =? 0xFEFF))%N.

Fixpoint trimStart (s : jsstring) : jsstring :=
  match s with
  | c :: rest => if is_js_whitespace c then trimStart rest else s
  | [] => []
  end.

Definition trimEnd (s : jsstring) : jsstring := rev (trimStart (rev s)).

Definition trim (s : jsstring) : jsstring := trimEnd (trimStart s).

(** ** Regular expressions

    The fragment of the JavaScript pattern language that the date pattern
    uses, with a backtracking matcher in continuation-passing style:
    alternatives are tried left to right and a bounded repetition is greedy. *)
Inductive regex : Type :=
  | Bol                                 (* ^ *)
  | Eol                                 (* $ (no multiline flag) *)
  | Digit                               (* \d *)
  | Chr (c : code_unit)                 (* a literal character *)
  | Alt (r1 r2 : regex)                 (* r1|r2 *)
  | Seq (r1 r2 : regex)                 (* r1r2 *)
  | Repeat (r : regex) (lo hi : nat)    (* r{lo,hi} *)
  | Group (i : nat) (r : regex).        (* the i-th capturing group (r) *)

(** [\d] without the unicode flag: [[0-9]] *)
Definition is_digit (c : code_unit) : bool := (48 <=? c)%N && (c <=? 57)%N.

Fixpoint exec (r : regex) (pos : nat) (s : jsstring) (caps : gmap nat (list N))
    (k : nat -> jsstring -> gmap nat (list N) -> option (gmap nat (list N)))
    {struct r} : option (gmap nat (list N)) :=
  match r with
  | Bol => if (pos =? 0)%nat then k pos s caps else None
  | Eol => match s with [] => k pos s caps | _ :: _ => None end
  | Digit =>
      match s with
      | c :: s' => if is_digit c then k (S pos) s' caps else None
      | [] => None
      end
  | Chr c =>
      match s with
      | c' :: s' => if (c' =? c)%N then k (S pos) s' caps else None
      | [] => None
      end
  | Alt r1 r2 =>
      match exec r1 pos s caps k with
      | Some m => Some m
      | None => exec r2 pos s caps k
      end
  | Seq r1 r2 =>
      exec r1 pos s caps (fun pos' s' caps' => exec r2 pos' s' caps' k)
  | Group i r1 =>
      exec r1 pos s caps
        (fun pos' s' caps' => k pos' s' (<[i := take (pos' - pos) s]> caps'))
  | Repeat r1 lo hi =>
      (fix rep (lo hi pos : nat) (s : jsstring) (caps : gmap nat (list N))
           {struct hi} : option (gmap nat (list N)) :=
         match hi with
         | O => k pos s caps
         | S hi' =>
             match exec r1 pos s caps
                     (fun pos' s' caps' => rep (pred lo) hi' pos' s' caps') with
             | Some m => Some m
             | None => if (lo =? 0)%nat then k pos s caps else None
             end
         end) lo hi pos s caps
  end.

(** [s.match(re)] for a pattern without the [g] flag: the first start
    position at which the pattern matches, with group 0 the whole match *)
Fixpoint search (re : regex) (pos : nat) (s : jsstring) : option (gmap nat (list N)) :=
  match exec re pos s ∅
          (fun pos' _ caps => Some (<[0%nat := take (pos' - pos) s]> caps)) with
  | Some m => Some m
  | None =>
      match s with
      | [] => None
      | _ :: s' => search re (S pos) s'
      end
  end.

Definition String_match (s : jsstring) (re : regex) : option (gmap nat (list N)) :=
  search re 0 s.

(** [(?:/|-)] *)
Definition separator : regex := Alt (Chr 47) (Chr 45).

(** [new RegExp('^(\\d{4})(?:/|-)(\\d{1,2})(?:/|-)(\\d{1,2})$')] *)
Definition date_pattern : regex :=
  Seq Bol
   (Seq (Group 1 (Repeat Digit 4 4))
    (Seq separator
     (Seq (Group 2 (Repeat Digit 1 2))
      (Seq separator
       (Seq (Group 3 (Repeat Digit 1 2))
        Eol))))).

(** [parseInt(ds, 10)] on a string of Latin digits: its decimal value.  The
    groups of [date_pattern] are non-empty digit strings, so the sign,
    white-space and not-a-number cases of [parseInt] do not arise. *)
Definition parseInt10 (ds : jsstring) : Z :=
  fold_left (fun acc c => 10 * acc + (Z.of_N c - 48)) ds 0.

(** [m[i]] of a match result *)
Definition group (m : gmap nat (list N)) (i : nat) : jsstring :=
  default [] (m !! i).

Definition parseJalaliDateString (s : jsstring) : option (Z * Z * Z) :=
  let normalized := trim (replace_fa_digits s) in
  match String_match normalized date_pattern with
  | None => None
  | Some m =>
      let jy := parseInt10 (group m 1) in
      let jm := parseInt10 (group m 2) in
      let jd := parseInt10 (group m 3) in
      if (jm <? 1) || (jm >? 12) || (jd <? 1) || (jd >? 31) then None
      else Some (jy, jm, jd)
  end.

(** [str.padStart(targetLength, pad)] for a one-unit [pad] *)
Definition padStart (str : jsstring) (targetLength : nat) (pad : code_unit) : jsstring :=
  if (targetLength <=? length str)%nat then str
  else replicate (targetLength - length str) pad ++ str.

(** [undefined] is [None] *)
Definition toGregorianISO (s : jsstring) : option (list N) :=
  match parseJalaliDateString s with
  | None => None
  | Some (jy, jm, jd) =>
      let '(gy, gm, gd) := jalaliToGregorian jy jm jd in
      let mm := padStart (String_of_number gm) 2 48%N in
      let dd := padStart (String_of_number gd) 2 48%N in
      Some (String_of_number gy ++ js "-" ++ mm ++ js "-" ++ dd)
  end.

(** ** The sales-summary request *)

(** truthiness of a [string | undefined]: [undefined] and [''] are falsy *)
Definition truthy (v : option (list N)) : bool :=
  match v with
  | Some (_ :: _) => true
  | _ => false
  end.

(** [v || undefined] *)
Definition or_undefined (v : option (list N)) : option (list N) :=
  if truthy v then v else None.

(** The [params] object that [getSalesSummary] hands to the HTTP client:
    [const params = {}; if (from) params.from = from; if (to) params.to = to;] *)
Definition getSalesSummary_params (from to : option (list N)) : gmap string (list N) :=
  let params : gmap string (list N) := ∅ in
  let params := if truthy from then <["from" := default [] from]> params else params in
  let params := if truthy to then <["to" := default [] to]> params else params in
  params.

(** The date filter of the [SalesReport] component: the two text fields and
    the values derived from them,
    [fromG = toGregorianISO(fromJ)], [toG = toGregorianISO(toJ)] and the
    call [getSalesSummary(fromG || undefined, toG || undefined)]. *)
Record SalesReportState : Type := {
  fromJ : list N;
  toJ : list N
}.

Definition fromG (st : SalesReportState) : option (list N) := toGregorianISO (fromJ st).
Definition toG (st : SalesReportState) : option (list N) := toGregorianISO (toJ st).

Definition sales_query_params (st : SalesReportState) : gmap string (list N) :=
  getSalesSummary_params (or_undefined (fromG st)) (or_undefined (toG st)).

(** ** Specification-side notions for the parser and the request *)

(** the Latin digit of a Persian digit; every other unit is left alone *)
Definition persian_to_latin (c : N) : N :=
  if is_fa_digit c then (c - 0x06F0 + 48)%N else c.

(** the Persian digit of a Latin digit; every other unit is left alone *)
Definition latin_to_persian (c : N) : N :=
  if is_digit c then (c - 48 + 0x06F0)%N else c.

(** the normalisation as the specification words it: trim, then map digits *)
Definition spec_normalize (s : list N) : list N := map persian_to_latin (trim s).

Definition is_separator (c : N) : Prop := c = 47%N \/ c = 45%N.

Definition all_digits (ds : list N) : Prop := Forall (fun c => is_digit c = true) ds.

(** The pattern in the words of the specification: four digits, a separator,
    one or two digits, a separator, one or two digits, and nothing else. *)
Definition date_shape (n y mo d : list N) : Prop :=
  exists s1 s2 : N,
    n = y ++ s1 :: mo ++ s2 :: d /\
    is_separator s1 /\ is_separator s2 /\
    (length y = 4 /\ 1 <= length mo <= 2 /\ 1 <= length d <= 2)%nat /\
    all_digits y /\ all_digits mo /\ all_digits d.

(** the value of a digit string read as a decimal numeral *)
Fixpoint decimal_value (ds : list N) : Z :=
  match ds with
  | [] => 0
  | c :: rest => (Z.of_N c - 48) * 10 ^ Z.of_nat (length rest) + decimal_value rest
  end.

(** The three captured fields of a text, if the pattern matches it. *)
Definition date_fields (n : list N) : option (list N * list N * list N) :=
  match String_match n date_pattern with
  | Some m => Some (group m 1, group m 2, group m 3)
  | None => None
  end.

Definition slash_to_dash (c : N) : N := if (c =? 47)%N then 45%N else c.
Definition dash_to_slash (c : N) : N := if (c =? 45)%N then 47%N else c.

(** the text ["۱۴۰۳/۰۱/۰۱"] *)
Definition persian_1403_01_01 : list N :=
  [0x06F1; 0x06F4; 0x06F0; 0x06F3; 47; 0x06F0; 0x06F1; 47; 0x06F0; 0x06F1]%N.

(** [format] of the specification: month and day zero-padded to two digits,
    joined with the year as YYYY-MM-DD *)
Definition iso_format (g : Z * Z * Z) : list N :=
  let '(year, month, day) := g in
  String_of_number year ++ js "-"
    ++ padStart (String_of_number month) 2 48%N ++ js "-"
    ++ padStart (String_of_number day) 2 48%N.

(** ** An invariant of the converter *)

(** What the month walk needs to know about the state after the year steps:
    the day number fits the year, and a set leap flag means a leap year. *)
Definition fits_year (st : Z * Z * bool) : Prop :=
  let '(gy, g_day_no, leap) := st in
  0 <= g_day_no /\
  if leap then g_day_no < 366 /\ is_leap_year gy = true else g_day_no < 365.

(** * Further notions: days, texts, response bodies, tokens *)

(** ** Counting days (proof devices for the converter)

    [cycle_date] is the Gregorian half of the converter inside one 400-year
    cycle starting at 1600, written with floor division; [successor_run]
    checks, day after day, that it moves to the next calendar day. *)
Definition date_eqb (a b : Z * Z * Z) : bool :=
  let '(y, m, d) := a in
  let '(y', m', d') := b in
  (y =? y') && (m =? m') && (d =? d').

Definition cycle_date (r : Z) : Z * Z * Z :=
  let '(gy, g, leap) :=
    if 36525 <=? r then
      let g := r - 1 in
      let gy := 1600 + 100 * (g / 36524) in
      let g := g mod 36524 in
      if 365 <=? g then (gy, g + 1, true) else (gy, g, false)
    else (1600, r, true) in
  let gy := gy + 4 * (g / 1461) in
  let g := g mod 1461 in
  month_day_step
    (if 366 <=? g then (gy + (g - 1) / 365, (g - 1) mod 365, false)
     else (gy, g, leap)).

Fixpoint successor_run (n : nat) (r : Z) (cur : Z * Z * Z) : bool :=
  match n with
  | O => true
  | S n' =>
      let nxt := cycle_date (r + 1) in
      date_eqb nxt (next_day cur) && successor_run n' (r + 1) nxt
  end.

Definition add_years (k : Z) (g : Z * Z * Z) : Z * Z * Z :=
  let '(y, m, d) := g in (y + k, m, d).

(** the length of a Jalali month before the twelfth: 31 days for the first
    six months, 30 for the others, as the month loop of the converter adds
    them *)
Definition jalali_month_length (jm : Z) : Z := if jm <=? 6 then 31 else 30.

(** the years to which the day count of the converter gives 366 days: those
    at a position 0, 4, ..., 28 of the 33-year cycle that starts at 979 *)
Definition jalali_leap (jy : Z) : bool :=
  ((jy - 979) mod 33 mod 4 =? 0) && negb ((jy - 979) mod 33 =? 32).

(** the last day of the twelfth month *)
Definition jalali_last_day (jy : Z) : Z := if jalali_leap jy then 30 else 29.

(** [all_from n r p]: [p] holds of the [n] integers from [r] on *)
Fixpoint all_from (n : nat) (r : Z) (p : Z -> bool) : bool :=
  match n with
  | O => true
  | S n' => p r && all_from n' (r + 1) p
  end.

(** the Gregorian year of a date *)
Definition year_of (g : Z * Z * Z) : Z := fst (fst g).

(** the check that Jalali year [jy] begins in Gregorian year [jy + 621] and
    that 366 days later the Gregorian year is at most [jy + 622] *)
Definition year_offset_check (jy : Z) : bool :=
  (year_of (jalaliToGregorian jy 1 1) =? jy + 621)
  && (year_of (gregorian_of_day_no (jalali_g_day_no jy 1 1 + 366)) <=? jy + 622).

(** white space only *)
Definition all_whitespace (l : list N) : Prop :=
  Forall (fun c => is_js_whitespace c = true) l.


(** the number of digits of a number from 0 to 9999 *)
Definition decimal_width (n : Z) : nat :=
  if n <? 10 then 1%nat else if n <? 100 then 2%nat
  else if n <? 1000 then 3%nat else 4%nat.

(** the check that [String(n)] is the decimal numeral of [n], with as many
    digits as the size of [n] asks for *)
Definition number_text_check (n : Z) : bool :=
  let s := String_of_number n in
  forallb is_digit s
  && (decimal_value s =? n)
  && Nat.eqb (length s) (decimal_width n).

(** a Jalali date written out: the year on four digits, the month and the
    day as they print, joined by [sep] *)
Definition jalali_text (sep : N) (jy jm jd : Z) : list N :=
  padStart (String_of_number jy) 4 48%N
    ++ sep :: String_of_number jm ++ sep :: String_of_number jd.

(** ** Response bodies of the API service

    What axios hands over as [response.data]: a JSON value, or [undefined]
    when there is none.  Numbers only matter here through their truthiness,
    so their type is left open. *)
Section ResponseBodies.
Variable number : Type.
Variable number_truthy : number -> bool.

#[warnings="-register-all"]
Inductive value : Type :=
  | VUndefined
  | VNull
  | VBool (b : bool)
  | VNumber (n : number)
  | VString (s : list N)
  | VArray (items : list value)
  | VObject (fields : gmap string value).

(** the truthiness of a value in a condition *)
Definition truthy_value (v : value) : bool :=
  match v with
  | VUndefined | VNull => false
  | VBool b => b
  | VNumber n => number_truthy n
  | VString s => match s with [] => false | _ :: _ => true end
  | VArray _ | VObject _ => true
  end.

(** [Array.isArray(v)] *)
Definition isArray (v : value) : bool :=
  match v with
  | VArray _ => true
  | _ => false
  end.

(** [v.k] for a key [k] that no built-in prototype defines ([data],
    [success], [items]): a [TypeError] ([None]) on [undefined] and [null],
    the field of an object, and [undefined] elsewhere *)
Definition get (v : value) (k : string) : option value :=
  match v with
  | VUndefined | VNull => None
  | VObject fields => Some (default VUndefined (fields !! k))
  | _ => Some VUndefined
  end.

(** [v?.k] *)
Definition get_opt (v : value) (k : string) : value :=
  match v with
  | VUndefined | VNull => VUndefined
  | _ => default VUndefined (get v k)
  end.

(** [typeof v === 'object'] *)
Definition typeof_object (v : value) : bool :=
  match v with
  | VNull | VArray _ | VObject _ => true
  | _ => false
  end.

(** [return Array.isArray(response.data) ? response.data : [];] *)
Definition array_or_empty (data : value) : option value :=
  Some (if isArray data then data else VArray []).

(** [getUsers], after the request:
    [if (response.data && response.data.success && Array.isArray(response.data.data))
       return response.data.data;
     return Array.isArray(response.data) ? response.data : [];] *)
Definition getUsers (data : value) : option value :=
  if truthy_value data then
    success ← get data "success";
    if truthy_value success then
      inner ← get data "data";
      if isArray inner then get data "data" else array_or_empty data
    else array_or_empty data
  else array_or_empty data.

(** [getReturns]: the same test, with the fall-back written as two returns *)
Definition getReturns (data : value) : option value :=
  if truthy_value data then
    success ← get data "success";
    if truthy_value success then
      inner ← get data "data";
      if isArray inner then get data "data"
      else if isArray data then Some data else Some (VArray [])
    else if isArray data then Some data else Some (VArray [])
  else if isArray data then Some data else Some (VArray []).

(** [getSalesSummary], after the request:
    [if (d.success && Array.isArray(d.data)) return d.data;
     return Array.isArray(response.data) ? response.data : [];] *)
Definition getSalesSummary_result (d : value) : option value :=
  success ← get d "success";
  if truthy_value success then
    inner ← get d "data";
    if isArray inner then get d "data" else array_or_empty d
  else array_or_empty d.

(** [getBanners] unwraps its body in the same words *)
Definition getBanners (d : value) : option value :=
  success ← get d "success";
  if truthy_value success then
    inner ← get d "data";
    if isArray inner then get d "data" else array_or_empty d
  else array_or_empty d.

(** [getReturnsAdmin]:
    [if (d?.success && Array.isArray(d?.data)) return d.data;
     if (Array.isArray(response.data)) return response.data;
     return [];] *)
Definition getReturnsAdmin (d : value) : option value :=
  if truthy_value (get_opt d "success") && isArray (get_opt d "data")
  then get d "data"
  else if isArray d then Some d else Some (VArray []).

(** [getFooterSettings]: the innermost array first *)
Definition getFooterSettings (d : value) : option value :=
  let nested := get_opt (get_opt d "data") "data" in
  if isArray nested then Some nested
  else
    let topData := get_opt d "data" in
    if isArray topData then Some topData
    else if isArray d then Some d
    else Some (VArray []).

(** [getDiningTables]: the outermost array first *)
Definition getDiningTables (data : value) : option value :=
  if isArray data then Some data
  else if isArray (get_opt data "data") then get data "data"
  else if isArray (get_opt (get_opt data "data") "data")
       then inner ← get data "data"; get inner "data"
  else Some (VArray []).

(** [getAllComments]: an array, or the array under [data], or that under
    [items] *)
Definition getAllComments (d : value) : option value :=
  if isArray d then Some d
  else
    c1 ← (if truthy_value d && typeof_object d
          then inner ← get d "data"; Some (isArray inner) else Some false);
    if (c1 : bool) then get d "data"
    else
      c2 ← (if truthy_value d && typeof_object d
            then inner ← get d "items"; Some (isArray inner) else Some false);
      if (c2 : bool) then get d "items" else Some (VArray []).

(** the envelope [{ success: ..., data: [...] }], with whatever else, and
    whether its [success] is truthy *)
Definition is_envelope (ok : bool) (d : value) (items : list value) : Prop :=
  exists fields success,
    d = VObject fields /\ fields !! "success" = Some success /\
    truthy_value success = ok /\ fields !! "data" = Some (VArray items).

(** a getter returned, and what it returned is an array *)
Definition returns_array (r : option value) : Prop :=
  exists items, r = Some (VArray items).

End ResponseBodies.

Arguments VUndefined {number}.
Arguments VNull {number}.
Arguments VBool {number} b.
Arguments VNumber {number} n.
Arguments VString {number} s.
Arguments VArray {number} items.
Arguments VObject {number} fields.
Arguments isArray {number} v.
Arguments get {number} v k.
Arguments get_opt {number} v k.
Arguments typeof_object {number} v.
Arguments array_or_empty {number} data.
Arguments getFooterSettings {number} d.
Arguments getDiningTables {number} data.
Arguments returns_array {number} r.

(** ** Token checks

    A stored token is a string or absent ([null], [undefined]: [None]). *)

(** [token !== lit] *)
Definition differs (t : list N) (lit : string) : bool :=
  negb (bool_decide (t = js lit)).

(** [token.trim() !== ""] *)
Definition trim_not_empty (t : list N) : bool :=
  negb (bool_decide (trim t = [])).

(** the auth store:
    [!!token && token.trim() !== "" && token !== "undefined" && token !== "null"] *)
Definition isValidToken (token : option (list N)) : bool :=
  match token with
  | None => false
  | Some t =>
      truthy (Some t) && trim_not_empty t && differs t "undefined" && differs t "null"
  end.

(** the request interceptor of the API service:
    [rawToken && rawToken !== "undefined" && rawToken !== "null"
       && rawToken.trim() !== "" ? rawToken : null] *)
Definition latestToken (rawToken : option (list N)) : option (list N) :=
  match rawToken with
  | None => None
  | Some t =>
      if truthy (Some t) && differs t "undefined" && differs t "null" && trim_not_empty t
      then Some t else None
  end.

(** the response interceptor, and in the same words the constructor:
    [!!(token && token !== 'undefined' && token !== 'null' && token.trim() !== '')] *)
Definition hasToken (token : option (list N)) : bool :=
  match token with
  | None => false
  | Some t =>
      truthy (Some t) && differs t "undefined" && differs t "null" && trim_not_empty t
  end.

(** [ApiService.login] stores the token it received when
    [accessToken && accessToken.trim() !== ''] *)
Definition login_stores (accessToken : option (list N)) : bool :=
  match accessToken with
  | None => false
  | Some t => truthy (Some t) && trim_not_empty t
  end.

(** * Properties *)

(** ** Integer arithmetic of the converter *)

Lemma ToInt32_id (x : Z) : - 2 ^ 31 <= x < 2 ^ 31 -> JS.ToInt32 x = x.
Proof.
  intros Hx. unfold JS.ToInt32.
  rewrite Z.mod_small by lia. lia.
Qed.

Lemma ToInt32_range (x : Z) : - 2 ^ 31 <= JS.ToInt32 x < 2 ^ 31.
Proof.
  unfold JS.ToInt32.
  pose proof (Z.mod_pos_bound (x + 2 ^ 31) (2 ^ 32) ltac:(lia)). lia.
Qed.

(** On a non-negative dividend below [2^31], [div] is floor division. *)
Lemma div_floor (a b : Z) : 0 <= a -> 0 < b -> a / b < 2 ^ 31 -> div a b = a / b.
Proof.
  intros Ha Hb Hq. unfold div, JS.trunc_quot.
  rewrite Z.quot_div_nonneg by lia.
  apply ToInt32_id. split; [|lia].
  pose proof (Z.div_pos a b Ha Hb). lia.
Qed.

Lemma div_floor_small (a b : Z) : 0 <= a < 2 ^ 31 -> 0 < b -> div a b = a / b.
Proof.
  intros Ha Hb. apply div_floor; try lia.
  pose proof (Z.div_le_upper_bound a b (2 ^ 31 - 1) Hb). nia.
Qed.

Lemma rem_mod (a b : Z) : 0 <= a -> 0 < b -> JS.rem a b = a mod b.
Proof. intros Ha Hb. unfold JS.rem. apply Z.rem_mod_nonneg; lia. Qed.

(** The month loop adds the lengths of the months before [jm]. *)
Lemma add_jalali_months_elapsed (jm x : Z) :
  0 <= jm <= 11 -> add_jalali_months jm x = x + Spec.elapsed_month_days jm.
Proof.
  intros Hjm.
  assert (Hcases : In jm [0; 1; 2; 3; 4; 5; 6; 7; 8; 9; 10; 11]).
  { simpl. lia. }
  simpl in Hcases.
  unfold add_jalali_months.
  repeat (destruct Hcases as [<- | Hcases];
          [match goal with
           | |- context [seqZ 0 ?k] =>
               let l := eval vm_compute in (seqZ 0 k) in
               let v := eval vm_compute in (Spec.elapsed_month_days k) in
               change (seqZ 0 k) with l;
               change (Spec.elapsed_month_days k) with v
           end; simpl; lia|]).
  contradiction.
Qed.

Lemma elapsed_month_days_bounds (jm : Z) :
  0 <= jm <= 11 -> 0 <= Spec.elapsed_month_days jm <= 336.
Proof.
  intros Hjm.
  assert (Hcases : In jm [0; 1; 2; 3; 4; 5; 6; 7; 8; 9; 10; 11]).
  { simpl. lia. }
  simpl in Hcases.
  repeat (destruct Hcases as [<- | Hcases]; [vm_compute; split; discriminate|]).
  contradiction.
Qed.

(** [jalaliToGregorian] is the composition of its two halves. *)
Lemma jalaliToGregorian_halves (jy jm jd : Z) :
  jalaliToGregorian jy jm jd = gregorian_of_day_no (jalali_g_day_no jy jm jd).
Proof.
  unfold jalaliToGregorian, gregorian_of_day_no, jalali_g_day_no.
  unfold month_day_step, year_step, century_step.
  cbv zeta.
  repeat match goal with
         | |- context [if ?b then _ else _] => destruct b
         end; reflexivity.
Qed.

(** ** Validity of the Gregorian result *)

Lemma is_leap_year_true (y : Z) :
  y mod 4 = 0 -> (y mod 100 <> 0 \/ y mod 400 = 0) -> is_leap_year y = true.
Proof.
  intros H4 H100. unfold is_leap_year.
  apply andb_true_iff. split; [apply Z.eqb_eq; assumption|].
  apply orb_true_iff. destruct H100 as [H|H].
  - left. apply negb_true_iff, Z.eqb_neq. assumption.
  - right. apply Z.eqb_eq. assumption.
Qed.

(** [lia] with the equations of division and modulus by constants *)
Ltac dlia := Z.to_euclidean_division_equations; lia.

Ltac floor_arith :=
  repeat match goal with
         | |- context [div ?a ?b] => rewrite (div_floor_small a b) by dlia
         | |- context [JS.rem ?a ?b] => rewrite (rem_mod a b) by dlia
         end.

Ltac geb_case :=
  match goal with
  | |- context [?a >=? ?b] =>
      let H := fresh "Hcmp" in
      destruct (a >=? b) eqn:H;
      [apply Z.geb_le in H | rewrite Z.geb_leb in H; apply Z.leb_gt in H]
  end.

Lemma year_steps_fit (gy0 r : Z) :
  gy0 mod 400 = 0 -> 0 <= r < 146097 ->
  fits_year (year_step (century_step gy0 r)).
Proof.
  intros Hgy Hr. unfold century_step.
  geb_case; cbv zeta; floor_arith.
  - geb_case; unfold year_step; floor_arith.
    + geb_case; floor_arith; unfold fits_year.
      * dlia.
      * split; [dlia|]. split; [dlia|]. apply is_leap_year_true; dlia.
    + geb_case; floor_arith; unfold fits_year; dlia.
  - unfold year_step. floor_arith.
    geb_case; floor_arith; unfold fits_year.
    + dlia.
    + split; [dlia|]. split; [dlia|]. apply is_leap_year_true; dlia.
Qed.

Lemma month_day_step_valid (st : Z * Z * bool) :
  fits_year st -> valid_gregorian (month_day_step st).
Proof.
  destruct st as [[gy g] leap]. unfold fits_year, month_day_step.
  intros [Hg Hfit].
  destruct leap; [destruct Hfit as [Hfit Hleap]|];
    unfold gdMonthDays, month_walk;
    repeat geb_case;
    unfold valid_gregorian, daysInMonth; simpl;
    try rewrite Hleap; try destruct (is_leap_year gy); lia.
Qed.

Lemma gregorian_of_day_no_valid (g : Z) :
  0 <= g -> valid_gregorian (gregorian_of_day_no g).
Proof.
  intros Hg. unfold gregorian_of_day_no. cbv zeta.
  apply month_day_step_valid, year_steps_fit.
  - rewrite Z.add_comm, Z.mul_comm.
    change 1600 with (4 * 400). rewrite <- Z.mul_add_distr_r.
    apply Z.mod_mul. discriminate.
  - rewrite rem_mod by lia. apply Z.mod_pos_bound. lia.
Qed.

(** From the epoch year on the day number is not negative, whatever [| 0]
    makes of the quotient by 33. *)
Lemma jalali_g_day_no_nonneg (jy jm jd : Z) :
  JALALI_EPOCH_YEAR <= jy -> 1 <= jm <= 12 -> 1 <= jd ->
  0 <= jalali_g_day_no jy jm jd.
Proof.
  unfold JALALI_EPOCH_YEAR. intros Hjy Hjm Hjd. unfold jalali_g_day_no. cbv zeta.
  rewrite add_jalali_months_elapsed by lia.
  pose proof (elapsed_month_days_bounds (jm - 1) ltac:(lia)) as Hm.
  rewrite (rem_mod (jy - 979) 33) by lia.
  rewrite (div_floor_small ((jy - 979) mod 33 + 3) 4) by dlia.
  destruct (Z_lt_le_dec ((jy - 979) / 33) (2 ^ 31)) as [Hsmall | Hbig].
  - rewrite (div_floor (jy - 979) 33) by lia. dlia.
  - pose proof (ToInt32_range (JS.trunc_quot (jy - 979) 33)) as Hw.
    unfold div. dlia.
Qed.

(** ** The converter against the reference algorithm *)

Lemma walk_months_month_walk (l : list Z) (m g : Z) :
  Spec.walk_months l (m + 1) g =
  let '(gm, r) := month_walk l m g in (gm + 1, r).
Proof.
  revert m g. induction l as [|d l IH]; intros m g; simpl.
  - reflexivity.
  - rewrite Z.geb_leb, Z.ltb_antisym.
    destruct (d <=? g); simpl; [apply IH | reflexivity].
Qed.

(** At a remaining day count of 36524 the specification's century correction
    changes nothing, so that the two thresholds describe one function. *)
Lemma century_step_spec (gy0 r : Z) :
  0 <= r < 146097 ->
  century_step gy0 r =
  if 36524 <=? r then
    if 365 <=? (r - 1) mod 36524
    then (gy0 + 100 * ((r - 1) / 36524) * 1, (r - 1) mod 36524 + 1, true)
    else (gy0 + 100 * ((r - 1) / 36524) * 1, (r - 1) mod 36524, false)
  else (gy0, r, true).
Proof.
  intros Hr. unfold century_step.
  geb_case; cbv zeta.
  - floor_arith. rewrite Z.geb_leb.
    replace (36524 <=? r) with true by (symmetry; apply Z.leb_le; lia).
    destruct (365 <=? (r - 1) mod 36524); f_equal; f_equal; lia.
  - destruct (36524 <=? r) eqn:Hs; [|reflexivity].
    apply Z.leb_le in Hs. assert (r = 36524) as -> by lia.
    vm_compute (365 <=? _). cbv iota.
    f_equal; f_equal; dlia.
Qed.

Lemma year_month_steps_spec (gy dc : Z) (leap : bool) :
  0 <= dc < 2 ^ 31 ->
  month_day_step (year_step (gy, dc, leap)) =
  let gregYear := gy + 4 * (dc / 1461) in
  let dayCount := dc mod 1461 in
  let '(gregYear, dayCount, leap) :=
    if 366 <=? dayCount then
      let dayCount := dayCount - 1 in
      (gregYear + dayCount / 365, dayCount mod 365, false)
    else (gregYear, dayCount, leap) in
  let '(month, remaining) :=
    Spec.walk_months (Spec.gregorian_month_lengths leap) 1 dayCount in
  (gregYear, month, remaining + 1).
Proof.
  intros Hdc. unfold year_step. cbv zeta. floor_arith.
  rewrite Z.geb_leb.
  destruct (366 <=? dc mod 1461) eqn:Hq.
  - apply Z.leb_le in Hq. floor_arith.
    unfold month_day_step.
    change (Spec.gregorian_month_lengths false) with (gdMonthDays false).
    rewrite (walk_months_month_walk (gdMonthDays false) 0).
    destruct (month_walk _ _ _). reflexivity.
  - unfold month_day_step.
    change (Spec.gregorian_month_lengths leap) with (gdMonthDays leap).
    rewrite (walk_months_month_walk (gdMonthDays leap) 0).
    destruct (month_walk _ _ _). reflexivity.
Qed.

Lemma jalali_g_day_no_spec (jy jm jd : Z) :
  JALALI_EPOCH_YEAR <= jy <= LAST_INT32_YEAR -> 1 <= jm <= 12 ->
  jalali_g_day_no jy jm jd =
  Spec.day_count (jy - 979) + Spec.elapsed_month_days (jm - 1) + (jd - 1) + 79.
Proof.
  unfold JALALI_EPOCH_YEAR, LAST_INT32_YEAR. intros Hjy Hjm.
  unfold jalali_g_day_no, Spec.day_count. cbv zeta.
  rewrite add_jalali_months_elapsed by lia.
  rewrite (rem_mod (jy - 979) 33) by lia.
  rewrite (div_floor_small ((jy - 979) mod 33 + 3) 4) by dlia.
  rewrite (div_floor (jy - 979) 33) by dlia.
  reflexivity.
Qed.

Lemma jalali_g_day_no_int32 (jy jm jd : Z) :
  JALALI_EPOCH_YEAR <= jy <= LAST_INT32_YEAR -> 1 <= jm <= 12 -> 1 <= jd <= 31 ->
  jalali_g_day_no jy jm jd / 146097 < 2 ^ 31.
Proof.
  intros Hjy Hjm Hjd. rewrite jalali_g_day_no_spec by assumption.
  pose proof (elapsed_month_days_bounds (jm - 1) ltac:(lia)) as Hm.
  unfold JALALI_EPOCH_YEAR, LAST_INT32_YEAR in Hjy. unfold Spec.day_count.
  apply Z.div_lt_upper_bound; [lia|]. dlia.
Qed.

(** C1 (as amended).  From the epoch year 979 up to the last year whose
    quotient by 33 fits the 32-bit [| 0], and for every month in [1,12] and
    day in [1,31], [jalaliToGregorian] and the nine-step reference algorithm
    of the specification are the same function. *)
Theorem jalaliToGregorian_refines_spec (jy jm jd : Z) :
  JALALI_EPOCH_YEAR <= jy <= LAST_INT32_YEAR -> 1 <= jm <= 12 -> 1 <= jd <= 31 ->
  jalaliToGregorian jy jm jd = Spec.convert jy jm jd.
Proof.
  intros Hjy Hjm Hjd.
  rewrite jalaliToGregorian_halves. unfold Spec.convert. cbv zeta.
  rewrite <- (jalali_g_day_no_spec jy jm jd) by assumption.
  pose proof (jalali_g_day_no_nonneg jy jm jd ltac:(lia) Hjm ltac:(lia)) as Hg.
  pose proof (jalali_g_day_no_int32 jy jm jd Hjy Hjm Hjd) as Hq.
  generalize dependent (jalali_g_day_no jy jm jd). intros g Hg Hq.
  unfold gregorian_of_day_no. cbv zeta.
  rewrite (div_floor g 146097), (rem_mod g 146097) by lia.
  assert (Hr : 0 <= g mod 146097 < 146097) by (apply Z.mod_pos_bound; lia).
  rewrite century_step_spec by assumption.
  destruct (36524 <=? g mod 146097) eqn:Hc.
  - apply Z.leb_le in Hc.
    destruct (365 <=? (g mod 146097 - 1) mod 36524);
      apply year_month_steps_spec; dlia.
  - apply year_month_steps_spec. lia.
Qed.

(** The refinement at Jalali 1403-01-01. *)
Lemma jalaliToGregorian_refines_spec_witness :
  jalaliToGregorian 1403 1 1 = Spec.convert 1403 1 1.
Proof.
  apply jalaliToGregorian_refines_spec;
    unfold JALALI_EPOCH_YEAR, LAST_INT32_YEAR; lia.
Defined.

(** C1 (as stated) fails: year 978 lies in the declared domain, where the
    truncating [div] and [%] of the code leave the day count negative while
    the floor division of the reference algorithm does not. *)
Lemma jalaliToGregorian_differs_before_epoch :
  jalali_domain 978 1 1 /\
  jalaliToGregorian 978 1 1 = (1600, 1, -285) /\
  Spec.convert 978 1 1 = (1599, 3, 21) /\
  jalaliToGregorian 978 1 1 <> Spec.convert 978 1 1.
Proof.
  split; [unfold jalali_domain; lia|].
  split; [vm_compute; reflexivity|].
  split; [vm_compute; reflexivity|].
  vm_compute. discriminate.
Qed.

(** The upper end of the amended domain is sharp as well: one year later the
    quotient by 33 reaches [2^31] and [| 0] wraps it. *)
Lemma jalaliToGregorian_wraps_past_int32_year :
  jalaliToGregorian (LAST_INT32_YEAR + 1) 1 1 <> Spec.convert (LAST_INT32_YEAR + 1) 1 1.
Proof. vm_compute. discriminate. Qed.

(** The code takes the century correction from 36525 on, not from 36524. *)
Lemma century_step_at_36524 (gy : Z) : century_step gy 36524 = (gy, 36524, true).
Proof. reflexivity. Qed.

(** C2 (as amended).  For every Jalali date with year from 979 up to the
    last year whose quotient by 33 fits the 32-bit [| 0] (the years on which
    every number of the computation is an exact integer below [2^53]), month
    in [1,12] and day in [1,31], the triple returned by [jalaliToGregorian]
    is a valid Gregorian date: month in [1,12] and day in [1, daysInMonth],
    under the divisible-by-4, not-by-100-unless-by-400 leap rule. *)
Theorem jalaliToGregorian_valid_from_epoch (jy jm jd : Z) :
  JALALI_EPOCH_YEAR <= jy <= LAST_INT32_YEAR -> 1 <= jm <= 12 -> 1 <= jd <= 31 ->
  valid_gregorian (jalaliToGregorian jy jm jd).
Proof.
  intros Hjy Hjm Hjd. rewrite jalaliToGregorian_halves.
  apply gregorian_of_day_no_valid, jalali_g_day_no_nonneg; lia.
Qed.

(** Validity at the first day of the epoch year. *)
Lemma jalaliToGregorian_valid_from_epoch_witness :
  valid_gregorian (jalaliToGregorian 979 1 1).
Proof.
  apply jalaliToGregorian_valid_from_epoch;
    unfold JALALI_EPOCH_YEAR, LAST_INT32_YEAR; lia.
Defined.

(** C2 (as stated) fails: year 978 is in the declared domain and its first
    day converts to day -285 of January 1600. *)
Lemma jalaliToGregorian_invalid_before_epoch :
  jalali_domain 978 1 1 /\
  jalaliToGregorian 978 1 1 = (1600, 1, -285) /\
  ~ valid_gregorian (jalaliToGregorian 978 1 1).
Proof.
  split; [unfold jalali_domain; lia|].
  split; [vm_compute; reflexivity|].
  change (jalaliToGregorian 978 1 1) with (1600, 1, -285).
  unfold valid_gregorian. lia.
Qed.

(** C3.  The reference pairs: Jalali 1403-01-01 is Gregorian 2024-03-20 and
    Jalali 1400-01-01 is Gregorian 2021-03-21. *)
Theorem jalaliToGregorian_reference_pairs :
  jalaliToGregorian 1403 1 1 = (2024, 3, 20) /\
  jalaliToGregorian 1400 1 1 = (2021, 3, 21).
Proof. split; vm_compute; reflexivity. Qed.

(** C6.  In the Jalali leap year 1403, day 30 of month 12 converts to a valid
    Gregorian date, which is the calendar day after the conversion of day 29
    of month 12; day 29 converts to 2025-03-19 (one of the two dates the
    specification allows). *)
Theorem jalaliToGregorian_1403_last_days :
  valid_gregorian (jalaliToGregorian 1403 12 30) /\
  jalaliToGregorian 1403 12 30 = next_day (jalaliToGregorian 1403 12 29) /\
  jalaliToGregorian 1403 12 29 = (2025, 3, 19) /\
  (jalaliToGregorian 1403 12 29 = (2025, 3, 19) \/
   jalaliToGregorian 1403 12 29 = (2025, 3, 20)).
Proof.
  assert (H29 : jalaliToGregorian 1403 12 29 = (2025, 3, 19))
    by (vm_compute; reflexivity).
  assert (H30 : jalaliToGregorian 1403 12 30 = (2025, 3, 20))
    by (vm_compute; reflexivity).
  rewrite H29, H30.
  split; [unfold valid_gregorian, daysInMonth; simpl; lia|].
  split; [reflexivity|].
  split; [reflexivity|].
  left. reflexivity.
Qed.

(** ** Normalisation of the typed text *)

Lemma is_fa_digit_cases (c : N) :
  is_fa_digit c = true ->
  In c [0x06F0; 0x06F1; 0x06F2; 0x06F3; 0x06F4; 0x06F5; 0x06F6; 0x06F7; 0x06F8; 0x06F9]%N.
Proof.
  unfold is_fa_digit. intros H.
  apply andb_true_iff in H as [Hlo Hhi].
  apply N.leb_le in Hlo, Hhi. simpl. lia.
Qed.

Lemma replace_callback_digit (c : N) :
  is_fa_digit c = true ->
  String_of_number (indexOf fa_digits c) = [persian_to_latin c].
Proof.
  intros H. apply is_fa_digit_cases in H. simpl in H.
  repeat (destruct H as [<- | H]; [vm_compute; reflexivity|]).
  contradiction.
Qed.

Lemma replace_fa_digits_map (s : list N) :
  replace_fa_digits s = map persian_to_latin s.
Proof.
  unfold replace_fa_digits.
  induction s as [|c s IH]; [reflexivity|].
  cbn [flat_map map]. rewrite IH.
  destruct (is_fa_digit c) eqn:Hc.
  - rewrite replace_callback_digit by assumption. reflexivity.
  - replace (persian_to_latin c) with c
      by (unfold persian_to_latin; rewrite Hc; reflexivity).
    reflexivity.
Qed.

Ltac not_whitespace c :=
  unfold is_js_whitespace;
  repeat match goal with
         | |- context [(c =? ?k)%N] =>
             replace (c =? k)%N with false by (symmetry; apply N.eqb_neq; lia)
         | |- context [(?k <=? c)%N] =>
             replace (k <=? c)%N with false by (symmetry; apply N.leb_gt; lia)
         end;
  reflexivity.

Lemma digit_not_whitespace (c : N) : is_digit c = true -> is_js_whitespace c = false.
Proof.
  unfold is_digit. intros H. apply andb_true_iff in H as [Hlo Hhi].
  apply N.leb_le in Hlo, Hhi. not_whitespace c.
Qed.

Lemma fa_digit_not_whitespace (c : N) : is_fa_digit c = true -> is_js_whitespace c = false.
Proof.
  unfold is_fa_digit. intros H. apply andb_true_iff in H as [Hlo Hhi].
  apply N.leb_le in Hlo, Hhi. not_whitespace c.
Qed.

Lemma persian_to_latin_digit (c : N) :
  is_fa_digit c = true -> is_digit (persian_to_latin c) = true.
Proof.
  intros H. unfold persian_to_latin. rewrite H.
  unfold is_fa_digit in H. apply andb_true_iff in H as [Hlo Hhi].
  apply N.leb_le in Hlo, Hhi. unfold is_digit.
  apply andb_true_iff. split; apply N.leb_le; lia.
Qed.

Lemma persian_to_latin_whitespace (c : N) :
  is_js_whitespace (persian_to_latin c) = is_js_whitespace c.
Proof.
  destruct (is_fa_digit c) eqn:Hc.
  - rewrite (fa_digit_not_whitespace c Hc).
    apply digit_not_whitespace, persian_to_latin_digit, Hc.
  - unfold persian_to_latin. rewrite Hc. reflexivity.
Qed.

(** Trimming commutes with any per-unit map that keeps white space white
    space and everything else something else. *)
Section TrimMap.
Variable f : N -> N.
Hypothesis f_whitespace : forall c, is_js_whitespace (f c) = is_js_whitespace c.

Lemma trimStart_map (s : list N) : trimStart (map f s) = map f (trimStart s).
Proof.
  induction s as [|c s IH]; simpl; [reflexivity|].
  rewrite f_whitespace. destruct (is_js_whitespace c); [apply IH | reflexivity].
Qed.

Lemma trim_map (s : list N) : trim (map f s) = map f (trim s).
Proof.
  unfold trim, trimEnd.
  rewrite trimStart_map, <- map_rev, trimStart_map, map_rev. reflexivity.
Qed.
End TrimMap.

(** The code maps the digits first and trims afterwards; the specification
    words it the other way round.  Both give the same text. *)
Lemma normalized_spec (s : list N) :
  trim (replace_fa_digits s) = spec_normalize s.
Proof.
  unfold spec_normalize. rewrite replace_fa_digits_map.
  apply trim_map, persian_to_latin_whitespace.
Qed.

(** ** The date pattern *)

Lemma search_unfold (re : regex) (pos : nat) (s : list N) :
  search re pos s =
  match exec re pos s ∅
          (fun pos' _ caps => Some (<[0%nat := take (pos' - pos) s]> caps)) with
  | Some m => Some m
  | None => match s with [] => None | _ :: s' => search re (S pos) s' end
  end.
Proof. destruct s; reflexivity. Qed.

(** A pattern that starts with [^] matches at position 0 or not at all. *)
Lemma search_bol_later (r : regex) (s : list N) (pos : nat) :
  pos <> 0%nat -> search (Seq Bol r) pos s = None.
Proof.
  revert pos. induction s as [|c s IH]; intros pos Hpos.
  - simpl. destruct pos; [contradiction | reflexivity].
  - rewrite search_unfold. simpl.
    destruct pos; [contradiction|]. simpl. apply IH. discriminate.
Qed.

Lemma String_match_bol (r : regex) (s : list N) :
  String_match s (Seq Bol r) =
  exec r 0 s ∅ (fun pos' _ caps => Some (<[0%nat := take (pos' - 0) s]> caps)).
Proof.
  unfold String_match. rewrite search_unfold. simpl.
  destruct (exec r 0 s ∅ _); [reflexivity|].
  destruct s; [reflexivity|]. apply search_bol_later. discriminate.
Qed.

(** The matcher on patterns other than the date pattern: the search moves
    on to later start positions, repetition is greedy, and group 0 is the
    whole match. *)
Example String_match_searches :
  String_match (js "ab123c4") (Group 1 (Repeat Digit 1 2)) =
  Some (<[0%nat := js "12"]> (<[1%nat := js "12"]> ∅)).
Proof. vm_compute. reflexivity. Qed.

Example String_match_backtracks :
  String_match (js "77") (Seq (Group 1 (Repeat Digit 1 2)) (Group 2 Digit)) =
  Some (<[0%nat := js "77"]> (<[2%nat := js "7"]> (<[1%nat := js "7"]> ∅))).
Proof. vm_compute. reflexivity. Qed.

Lemma separator_not_digit (c : N) : is_separator c -> is_digit c = false.
Proof. intros [-> | ->]; reflexivity. Qed.

Ltac step_match H :=
  match type of H with
  | context [match ?l with [] => _ | _ :: _ => _ end] =>
      is_var l; destruct l; simpl in H
  | context [if is_digit ?c then _ else _] =>
      is_var c; destruct (is_digit c) eqn:?; simpl in H
  | context [if (?c =? ?k)%N then _ else _] =>
      is_var c;
      let E := fresh "E" in
      destruct (c =? k)%N eqn:E;
      [apply N.eqb_eq in E; subst c | ]; simpl in H
  end.

Lemma date_pattern_sound (n : list N) (m : gmap nat (list N)) :
  String_match n date_pattern = Some m ->
  exists y mo d, date_shape n y mo d /\
                 group m 1 = y /\ group m 2 = mo /\ group m 3 = d.
Proof.
  unfold date_pattern. rewrite String_match_bol. intros H. simpl in H.
  repeat (step_match H; try discriminate H).
  all: try match goal with
           | Hd : is_digit 47 = true |- _ => discriminate Hd
           | Hd : is_digit 45 = true |- _ => discriminate Hd
           end.
  all: injection H as <-.
  all: refine (ex_intro _ _ (ex_intro _ _ (ex_intro _ _
                (conj _ (conj eq_refl (conj eq_refl eq_refl)))))).
  all: repeat match goal with
              | |- context [group ?m ?i] =>
                  let v := eval vm_compute in (group m i) in
                  change (group m i) with v
              end.
  all: unfold date_shape; eexists _, _.
  all: split; [reflexivity|].
  all: unfold is_separator, all_digits; simpl.
  all: repeat split; auto; try lia.
Qed.

Ltac digits_of H :=
  unfold all_digits in H;
  repeat match type of H with
         | Forall _ (_ :: _) =>
             let Hc := fresh "Hdigit" in
             apply Forall_cons in H as [Hc H]
         end.

Lemma date_pattern_complete (n y mo d : list N) :
  date_shape n y mo d ->
  exists m, String_match n date_pattern = Some m /\
            group m 1 = y /\ group m 2 = mo /\ group m 3 = d.
Proof.
  intros (s1 & s2 & -> & Hs1 & Hs2 & (Hy & Hmo & Hd) & Dy & Dmo & Dd).
  destruct y as [|y1 [|y2 [|y3 [|y4 [|? ?]]]]]; simpl in Hy; try lia.
  destruct mo as [|m1 [|m2 [|? ?]]]; simpl in Hmo; try lia;
    destruct d as [|d1 [|d2 [|? ?]]]; simpl in Hd; try lia;
    digits_of Dy; digits_of Dmo; digits_of Dd;
    destruct Hs1 as [-> | ->], Hs2 as [-> | ->];
    unfold date_pattern; rewrite String_match_bol; simpl;
    repeat match goal with
           | Hc : is_digit ?c = true |- _ => rewrite Hc; clear Hc; simpl
           end;
    eexists; (split; [reflexivity|]); repeat split; reflexivity.
Qed.

Lemma date_fields_shape (n y mo d : list N) :
  date_fields n = Some (y, mo, d) <-> date_shape n y mo d.
Proof.
  unfold date_fields. split.
  - destruct (String_match n date_pattern) as [m|] eqn:Hm; [|discriminate].
    intros [= <- <- <-].
    destruct (date_pattern_sound n m Hm) as (y & mo & d & Hs & <- & <- & <-).
    exact Hs.
  - intros Hs. destruct (date_pattern_complete n y mo d Hs)
      as (m & -> & <- & <- & <-). reflexivity.
Qed.

Lemma date_fields_none (n : list N) :
  date_fields n = None <-> ~ exists y mo d, date_shape n y mo d.
Proof.
  split.
  - intros Hn (y & mo & d & Hs). apply date_fields_shape in Hs. congruence.
  - intros Hn. destruct (date_fields n) as [[[y mo] d]|] eqn:Hf; [|reflexivity].
    exfalso. apply Hn. exists y, mo, d. apply date_fields_shape, Hf.
Qed.


Lemma parseInt10_from (ds : list N) (acc : Z) :
  fold_left (fun acc c => 10 * acc + (Z.of_N c - 48)) ds acc =
  acc * 10 ^ Z.of_nat (length ds) + decimal_value ds.
Proof.
  revert acc. induction ds as [|c ds IH]; intros acc.
  - simpl. lia.
  - cbn [fold_left decimal_value length]. rewrite IH.
    rewrite Nat2Z.inj_succ, Z.pow_succ_r by lia. ring.
Qed.

Lemma parseInt10_decimal (ds : list N) : parseInt10 ds = decimal_value ds.
Proof. unfold parseInt10. rewrite parseInt10_from. lia. Qed.

(** [parseJalaliDateString] in terms of the captured fields *)
Lemma parseJalaliDateString_fields (s : list N) :
  parseJalaliDateString s =
  match date_fields (spec_normalize s) with
  | None => None
  | Some (y, mo, d) =>
      if (decimal_value mo <? 1) || (decimal_value mo >? 12)
         || (decimal_value d <? 1) || (decimal_value d >? 31)
      then None
      else Some (decimal_value y, decimal_value mo, decimal_value d)
  end.
Proof.
  unfold parseJalaliDateString, date_fields. cbv zeta.
  rewrite normalized_spec.
  destruct (String_match (spec_normalize s) date_pattern); [|reflexivity].
  rewrite !parseInt10_decimal. reflexivity.
Qed.

Lemma out_of_range_test (jm jd : Z) :
  (jm <? 1) || (jm >? 12) || (jd <? 1) || (jd >? 31) = false <->
  1 <= jm <= 12 /\ 1 <= jd <= 31.
Proof.
  rewrite !orb_false_iff, !Z.ltb_ge, !Z.gtb_ltb, !Z.ltb_ge. lia.
Qed.

(** ** Digits in either script *)

Lemma persian_to_latin_to_persian (c : N) :
  persian_to_latin (latin_to_persian c) = persian_to_latin c.
Proof.
  unfold latin_to_persian. destruct (is_digit c) eqn:Hc; [|reflexivity].
  unfold is_digit in Hc. apply andb_true_iff in Hc as [Hlo Hhi].
  apply N.leb_le in Hlo, Hhi.
  unfold persian_to_latin, is_fa_digit.
  replace (0x06F0 <=? c - 48 + 0x06F0)%N with true by (symmetry; apply N.leb_le; lia).
  replace (c - 48 + 0x06F0 <=? 0x06F9)%N with true by (symmetry; apply N.leb_le; lia).
  replace (0x06F0 <=? c)%N with false by (symmetry; apply N.leb_gt; lia).
  simpl. lia.
Qed.

(** C7.  Writing every Latin digit of a text as the corresponding Persian
    digit (U+06F0 to U+06F9) does not change what [parseJalaliDateString]
    returns for it; the Persian spelling of 1403/01/01 parses to the same
    triple as the Latin one. *)
Theorem parseJalaliDateString_persian_digits (s : list N) :
  parseJalaliDateString (map latin_to_persian s) = parseJalaliDateString s /\
  map latin_to_persian (js "1403/01/01") = persian_1403_01_01 /\
  parseJalaliDateString persian_1403_01_01 = parseJalaliDateString (js "1403/01/01") /\
  parseJalaliDateString (js "1403/01/01") = Some (1403, 1, 1).
Proof.
  split; [|repeat split; vm_compute; reflexivity].
  unfold parseJalaliDateString.
  rewrite !replace_fa_digits_map, map_map.
  rewrite (map_ext _ _ persian_to_latin_to_persian). reflexivity.
Qed.

(** ** Separators *)

(** The parser cannot tell two texts apart when one is the image of the other
    under a per-unit map that only moves separators to separators. *)
Section SeparatorMap.
Variable f : N -> N.
Hypothesis f_separator : forall c, is_separator (f c) <-> is_separator c.
Hypothesis f_other : forall c, is_separator c \/ f c = c.

Lemma separator_not_whitespace (c : N) : is_separator c -> is_js_whitespace c = false.
Proof. intros [-> | ->]; reflexivity. Qed.

Lemma separator_not_fa_digit (c : N) : is_separator c -> is_fa_digit c = false.
Proof. intros [-> | ->]; reflexivity. Qed.

Lemma f_whitespace (c : N) : is_js_whitespace (f c) = is_js_whitespace c.
Proof.
  destruct (f_other c) as [Hs | ->]; [|reflexivity].
  rewrite (separator_not_whitespace c Hs).
  apply separator_not_whitespace, f_separator, Hs.
Qed.

Lemma f_digit (c : N) : is_digit (f c) = is_digit c.
Proof.
  destruct (f_other c) as [Hs | ->]; [|reflexivity].
  rewrite (separator_not_digit c Hs).
  apply separator_not_digit, f_separator, Hs.
Qed.

Lemma f_fixes_digit (c : N) : is_digit c = true -> f c = c.
Proof.
  intros Hc. destruct (f_other c) as [Hs | Hf]; [|exact Hf].
  rewrite (separator_not_digit c Hs) in Hc. discriminate.
Qed.

Lemma f_persian_to_latin (c : N) : persian_to_latin (f c) = f (persian_to_latin c).
Proof.
  destruct (is_fa_digit c) eqn:Hc.
  - rewrite (f_fixes_digit (persian_to_latin c)) by (apply persian_to_latin_digit, Hc).
    destruct (f_other c) as [Hs | ->]; [|reflexivity].
    rewrite (separator_not_fa_digit c Hs) in Hc. discriminate.
  - replace (persian_to_latin c) with c
      by (unfold persian_to_latin; rewrite Hc; reflexivity).
    destruct (f_other c) as [Hs | ->].
    + unfold persian_to_latin.
      rewrite separator_not_fa_digit by (apply f_separator, Hs). reflexivity.
    + unfold persian_to_latin. rewrite Hc. reflexivity.
Qed.

Lemma spec_normalize_map (s : list N) :
  spec_normalize (map f s) = map f (spec_normalize s).
Proof.
  unfold spec_normalize. rewrite (trim_map f f_whitespace), !map_map.
  apply map_ext, f_persian_to_latin.
Qed.

Lemma map_digits_fixed (l : list N) : all_digits l -> map f l = l.
Proof.
  induction 1 as [|c l Hc _ IH]; simpl; [reflexivity|].
  rewrite IH, f_fixes_digit by assumption. reflexivity.
Qed.

Lemma all_digits_map (l : list N) : all_digits (map f l) -> all_digits l.
Proof.
  unfold all_digits. induction l as [|c l IH]; simpl; intros H; [constructor|].
  apply Forall_cons in H as [Hc H]. rewrite f_digit in Hc.
  constructor; [exact Hc | apply IH, H].
Qed.

Lemma date_shape_map (n y mo d : list N) :
  date_shape (map f n) y mo d <-> date_shape n y mo d.
Proof.
  split.
  - intros (s1 & s2 & Hn & Hs1 & Hs2 & Hlen & Dy & Dmo & Dd).
    apply map_eq_app in Hn as (y0 & r1 & -> & Hy0 & Hr1).
    apply map_eq_cons in Hr1 as (t1 & r2 & -> & Ht1 & Hr2).
    apply map_eq_app in Hr2 as (mo0 & r3 & -> & Hmo0 & Hr3).
    apply map_eq_cons in Hr3 as (t2 & d0 & -> & Ht2 & Hd0).
    subst y mo d s1 s2.
    pose proof (all_digits_map _ Dy) as Dy0.
    pose proof (all_digits_map _ Dmo) as Dmo0.
    pose proof (all_digits_map _ Dd) as Dd0.
    rewrite !map_digits_fixed by assumption.
    rewrite !map_digits_fixed in Hlen by assumption.
    exists t1, t2. rewrite f_separator in Hs1, Hs2. auto 10.
  - intros (s1 & s2 & -> & Hs1 & Hs2 & Hlen & Dy & Dmo & Dd).
    exists (f s1), (f s2).
    rewrite map_app. cbn [map]. rewrite map_app. cbn [map].
    rewrite !map_digits_fixed by assumption.
    rewrite !f_separator. auto 10.
Qed.

Lemma date_fields_map (n : list N) : date_fields (map f n) = date_fields n.
Proof.
  destruct (date_fields n) as [[[y mo] d]|] eqn:Hf.
  - apply date_fields_shape, date_shape_map, date_fields_shape, Hf.
  - apply date_fields_none. apply date_fields_none in Hf.
    intros (y & mo & d & Hs). apply Hf. exists y, mo, d.
    apply date_shape_map, Hs.
Qed.

Lemma parseJalaliDateString_map (s : list N) :
  parseJalaliDateString (map f s) = parseJalaliDateString s.
Proof.
  rewrite !parseJalaliDateString_fields, spec_normalize_map, date_fields_map.
  reflexivity.
Qed.
End SeparatorMap.

Lemma slash_to_dash_separator (c : N) : is_separator (slash_to_dash c) <-> is_separator c.
Proof.
  unfold slash_to_dash, is_separator.
  destruct (c =? 47)%N eqn:E; [apply N.eqb_eq in E; subst c|]; intuition lia.
Qed.

Lemma slash_to_dash_other (c : N) : is_separator c \/ slash_to_dash c = c.
Proof.
  unfold slash_to_dash, is_separator.
  destruct (c =? 47)%N eqn:E; [apply N.eqb_eq in E; subst c|]; auto.
Qed.

Lemma dash_to_slash_separator (c : N) : is_separator (dash_to_slash c) <-> is_separator c.
Proof.
  unfold dash_to_slash, is_separator.
  destruct (c =? 45)%N eqn:E; [apply N.eqb_eq in E; subst c|]; intuition lia.
Qed.

Lemma dash_to_slash_other (c : N) : is_separator c \/ dash_to_slash c = c.
Proof.
  unfold dash_to_slash, is_separator.
  destruct (c =? 45)%N eqn:E; [apply N.eqb_eq in E; subst c|]; auto.
Qed.

(** C8.  Writing [-] for every [/] of a text, or [/] for every [-], does not
    change what [parseJalaliDateString] returns for it; 1403-01-01 and
    1403/01/01 parse to the same triple. *)
Theorem parseJalaliDateString_separator_swap (s : list N) :
  parseJalaliDateString (map slash_to_dash s) = parseJalaliDateString s /\
  parseJalaliDateString (map dash_to_slash s) = parseJalaliDateString s /\
  map slash_to_dash (js "1403/01/01") = js "1403-01-01" /\
  parseJalaliDateString (js "1403-01-01") = parseJalaliDateString (js "1403/01/01") /\
  parseJalaliDateString (js "1403/01/01") = Some (1403, 1, 1).
Proof.
  split; [|split; [|repeat split; vm_compute; reflexivity]].
  - apply parseJalaliDateString_map;
      [apply slash_to_dash_separator | apply slash_to_dash_other].
  - apply parseJalaliDateString_map;
      [apply dash_to_slash_separator | apply dash_to_slash_other].
Qed.

Lemma dash_to_slash_digits (l : list N) : all_digits l -> map dash_to_slash l = l.
Proof.
  apply map_digits_fixed, dash_to_slash_other.
Qed.

(** C10.  The two separators are matched independently of each other: a text
    with any two separators between its three digit fields parses to what
    the same fields joined by [/] parse to, and the mixed 1403/01-01 is
    accepted with the triple of 1403/01/01. *)
Theorem parseJalaliDateString_mixed_separators :
  (forall (y mo d : list N) (s1 s2 : N),
     all_digits y -> all_digits mo -> all_digits d ->
     is_separator s1 -> is_separator s2 ->
     parseJalaliDateString (y ++ s1 :: mo ++ s2 :: d) =
     parseJalaliDateString (y ++ 47%N :: mo ++ 47%N :: d)) /\
  parseJalaliDateString (js "1403/01-01") = Some (1403, 1, 1) /\
  parseJalaliDateString (js "1403/01-01") = parseJalaliDateString (js "1403/01/01").
Proof.
  split; [|split; vm_compute; reflexivity].
  intros y mo d s1 s2 Dy Dmo Dd Hs1 Hs2.
  rewrite <- (parseJalaliDateString_map dash_to_slash
                dash_to_slash_separator dash_to_slash_other
                (y ++ s1 :: mo ++ s2 :: d)).
  rewrite map_app. cbn [map]. rewrite map_app. cbn [map].
  rewrite !dash_to_slash_digits by assumption.
  assert (Hsep : forall c, is_separator c -> dash_to_slash c = 47%N)
    by (intros c [-> | ->]; reflexivity).
  rewrite !Hsep by assumption. reflexivity.
Qed.

(** Independence of the separators at 1403-01/01. *)
Lemma parseJalaliDateString_mixed_separators_witness :
  parseJalaliDateString (js "1403" ++ 45%N :: js "01" ++ 47%N :: js "01") =
  parseJalaliDateString (js "1403" ++ 47%N :: js "01" ++ 47%N :: js "01").
Proof.
  apply (proj1 parseJalaliDateString_mixed_separators);
    unfold all_digits, is_separator; auto; repeat constructor.
Defined.

(** ** The composed function and the request *)

Lemma toGregorianISO_compose (s : list N) :
  toGregorianISO s =
  option_map (fun '(jy, jm, jd) => iso_format (jalaliToGregorian jy jm jd))
             (parseJalaliDateString s).
Proof.
  unfold toGregorianISO.
  destruct (parseJalaliDateString s) as [[[jy jm] jd]|]; [|reflexivity].
  simpl. unfold iso_format.
  destruct (jalaliToGregorian jy jm jd) as [[gy gm] gd]. reflexivity.
Qed.

Lemma getSalesSummary_params_from (from to : option (list N)) :
  getSalesSummary_params from to !! "from" =
  if truthy from then from else None.
Proof.
  unfold getSalesSummary_params.
  destruct from as [[|c from]|], to as [[|c' to]|]; reflexivity.
Qed.

Lemma getSalesSummary_params_to (from to : option (list N)) :
  getSalesSummary_params from to !! "to" =
  if truthy to then to else None.
Proof.
  unfold getSalesSummary_params.
  destruct from as [[|c from]|], to as [[|c' to]|]; reflexivity.
Qed.

Lemma getSalesSummary_params_other (from to : option (list N)) (k : string) :
  k <> "from" -> k <> "to" -> getSalesSummary_params from to !! k = None.
Proof.
  intros Hf Ht. unfold getSalesSummary_params.
  destruct (truthy from), (truthy to);
    rewrite ?lookup_insert_ne by congruence; apply lookup_empty.
Qed.

(** * Further properties *)

(** ** The converter counts calendar days *)

Lemma date_eqb_eq (a b : Z * Z * Z) : date_eqb a b = true -> a = b.
Proof.
  destruct a as [[y m] d], b as [[y' m'] d']. unfold date_eqb.
  rewrite !andb_true_iff, !Z.eqb_eq. intros [[-> ->] ->]. reflexivity.
Qed.

Lemma successor_run_sound (n : nat) (r : Z) :
  successor_run n r (cycle_date r) = true ->
  forall k, r <= k < r + Z.of_nat n -> cycle_date (k + 1) = next_day (cycle_date k).
Proof.
  revert r. induction n as [|n IH]; intros r Hrun k Hk; [lia|].
  cbn [successor_run] in Hrun. apply andb_true_iff in Hrun as [Hhere Hrest].
  destruct (Z.eq_dec k r) as [-> | Hne].
  - apply date_eqb_eq, Hhere.
  - apply (IH (r + 1) Hrest). lia.
Qed.

Lemma cycle_successor_run : successor_run (Z.to_nat 146096) 0 (cycle_date 0) = true.
Proof. vm_compute. reflexivity. Qed.

Lemma cycle_date_next (r : Z) :
  0 <= r < 146096 -> cycle_date (r + 1) = next_day (cycle_date r).
Proof.
  intros Hr. apply (successor_run_sound _ 0 cycle_successor_run). lia.
Qed.

(** Inside a cycle the code's steps are [cycle_date]. *)
Lemma cycle_date_steps (r : Z) :
  0 <= r < 146097 ->
  month_day_step (year_step (century_step 1600 r)) = cycle_date r.
Proof.
  intros Hr. unfold cycle_date, century_step.
  rewrite Z.geb_leb.
  destruct (36525 <=? r) eqn:Hc; cbv zeta.
  - apply Z.leb_le in Hc. floor_arith. rewrite Z.geb_leb.
    destruct (365 <=? (r - 1) mod 36524) eqn:Hy;
      unfold year_step; floor_arith; rewrite Z.geb_leb;
      (destruct (366 <=? _) eqn:Hq; [apply Z.leb_le in Hq; floor_arith|]);
      reflexivity.
  - apply Z.leb_gt in Hc. unfold year_step. floor_arith. rewrite Z.geb_leb.
    destruct (366 <=? r mod 1461) eqn:Hq; [apply Z.leb_le in Hq; floor_arith|];
      reflexivity.
Qed.

(** The starting year only shifts the result. *)
Lemma steps_add_years (gy r : Z) :
  month_day_step (year_step (century_step gy r)) =
  add_years (gy - 1600) (month_day_step (year_step (century_step 1600 r))).
Proof.
  unfold century_step, year_step, month_day_step. cbv zeta.
  repeat match goal with
         | |- context [if ?b then _ else _] => destruct b
         end;
    repeat match goal with
           | |- context [month_walk ?l ?m ?g] => destruct (month_walk l m g)
           end;
    unfold add_years; f_equal; f_equal; lia.
Qed.

Lemma gregorian_of_day_no_cycle (g : Z) :
  0 <= g -> g / 146097 < 2 ^ 31 ->
  gregorian_of_day_no g = add_years (400 * (g / 146097)) (cycle_date (g mod 146097)).
Proof.
  intros Hg Hq. unfold gregorian_of_day_no. cbv zeta.
  rewrite (div_floor g 146097), (rem_mod g 146097) by lia.
  rewrite steps_add_years, cycle_date_steps by (apply Z.mod_pos_bound; lia).
  f_equal. lia.
Qed.

Lemma is_leap_year_add_400 (y k : Z) : is_leap_year (y + 400 * k) = is_leap_year y.
Proof.
  unfold is_leap_year.
  replace ((y + 400 * k) mod 4) with (y mod 4) by dlia.
  replace ((y + 400 * k) mod 100) with (y mod 100) by dlia.
  replace ((y + 400 * k) mod 400) with (y mod 400) by dlia.
  reflexivity.
Qed.

Lemma next_day_add_years (k : Z) (g : Z * Z * Z) :
  next_day (add_years (400 * k) g) = add_years (400 * k) (next_day g).
Proof.
  destruct g as [[y m] d]. unfold add_years, next_day, daysInMonth.
  rewrite is_leap_year_add_400.
  repeat match goal with
         | |- context [if ?b then _ else _] => destruct b
         end; f_equal; f_equal; lia.
Qed.

(** One more day in the day number is the next day of the calendar. *)
Lemma gregorian_of_day_no_next (g : Z) :
  0 <= g -> (g + 1) / 146097 < 2 ^ 31 ->
  gregorian_of_day_no (g + 1) = next_day (gregorian_of_day_no g).
Proof.
  intros Hg Hq.
  assert (Hq' : g / 146097 < 2 ^ 31) by dlia.
  rewrite !gregorian_of_day_no_cycle by lia.
  rewrite next_day_add_years.
  destruct (Z.eq_dec (g mod 146097) 146096) as [Hlast | Hin].
  - replace ((g + 1) mod 146097) with 0 by dlia.
    replace ((g + 1) / 146097) with (g / 146097 + 1) by dlia.
    rewrite Hlast.
    change (cycle_date 0) with (1600, 1, 1).
    replace (cycle_date 146096) with (1999, 12, 31) by (vm_compute; reflexivity).
    change (next_day (1999, 12, 31)) with (2000, 1, 1).
    unfold add_years. f_equal. f_equal. lia.
  - replace ((g + 1) mod 146097) with (g mod 146097 + 1) by dlia.
    replace ((g + 1) / 146097) with (g / 146097) by dlia.
    rewrite cycle_date_next by dlia. reflexivity.
Qed.

Lemma all_from_sound (n : nat) (r : Z) (p : Z -> bool) :
  all_from n r p = true -> forall k, r <= k < r + Z.of_nat n -> p k = true.
Proof.
  revert r. induction n as [|n IH]; intros r Hall k Hk; [lia|].
  cbn [all_from] in Hall. apply andb_true_iff in Hall as [Hhere Hrest].
  destruct (Z.eq_dec k r) as [-> | Hne]; [exact Hhere|].
  apply (IH (r + 1) Hrest). lia.
Qed.

Lemma jalali_g_day_no_day (jy jm jd k : Z) :
  jalali_g_day_no jy jm (jd + k) = jalali_g_day_no jy jm jd + k.
Proof. unfold jalali_g_day_no. cbv zeta. lia. Qed.

Lemma elapsed_month_days_next (jm : Z) :
  1 <= jm <= 11 ->
  Spec.elapsed_month_days jm = Spec.elapsed_month_days (jm - 1) + jalali_month_length jm.
Proof.
  intros Hjm.
  assert (Hcases : In jm [1; 2; 3; 4; 5; 6; 7; 8; 9; 10; 11]) by (simpl; lia).
  simpl in Hcases.
  repeat (destruct Hcases as [<- | Hcases]; [vm_compute; reflexivity|]).
  contradiction.
Qed.

Lemma jalali_g_day_no_month (jy jm jd : Z) :
  1 <= jm <= 11 ->
  jalali_g_day_no jy (jm + 1) jd = jalali_g_day_no jy jm jd + jalali_month_length jm.
Proof.
  intros Hjm. unfold jalali_g_day_no. cbv zeta.
  rewrite (add_jalali_months_elapsed (jm + 1 - 1)) by lia.
  rewrite (add_jalali_months_elapsed (jm - 1)) by lia.
  replace (jm + 1 - 1) with jm by lia.
  rewrite (elapsed_month_days_next jm Hjm). lia.
Qed.

Lemma jalali_leap_day_count (jy : Z) :
  Spec.day_count (jy + 1 - 979) =
  Spec.day_count (jy - 979) + 336 + jalali_last_day jy.
Proof.
  unfold Spec.day_count, jalali_last_day, jalali_leap.
  replace (jy + 1 - 979) with (jy - 979 + 1) by lia.
  generalize (jy - 979). intros x.
  pose proof (Z.mod_pos_bound x 33 ltac:(lia)) as Hm.
  pose proof (Z.div_mod x 33 ltac:(lia)) as Hx.
  destruct (Z.eq_dec (x mod 33) 32) as [H32 | H32].
  - replace ((x + 1) / 33) with (x / 33 + 1) by dlia.
    replace ((x + 1) mod 33) with 0 by dlia.
    rewrite H32. change (32 mod 4 =? 0) with true. change (32 =? 32) with true.
    cbn [andb negb]. dlia.
  - replace ((x + 1) / 33) with (x / 33) by dlia.
    replace ((x + 1) mod 33) with (x mod 33 + 1) by dlia.
    replace (x mod 33 =? 32) with false by (symmetry; apply Z.eqb_neq; exact H32).
    generalize dependent (x mod 33). intros m Hm _ _.
    destruct (m mod 4 =? 0) eqn:H4; simpl;
      rewrite ?Z.eqb_eq, ?Z.eqb_neq in H4; dlia.
Qed.

Lemma jalali_g_day_no_year (jy : Z) :
  JALALI_EPOCH_YEAR <= jy < LAST_INT32_YEAR ->
  jalali_g_day_no (jy + 1) 1 1 = jalali_g_day_no jy 12 (jalali_last_day jy) + 1.
Proof.
  intros Hjy. rewrite !jalali_g_day_no_spec by (unfold JALALI_EPOCH_YEAR in *; lia).
  rewrite jalali_leap_day_count.
  change (Spec.elapsed_month_days (12 - 1)) with 336.
  change (Spec.elapsed_month_days (1 - 1)) with 0. lia.
Qed.

(** X1.  From the epoch year on, the day after a Jalali date of the same
    month converts to the calendar day after its conversion. *)
Theorem jalaliToGregorian_next_day_in_month (jy jm jd : Z) :
  JALALI_EPOCH_YEAR <= jy <= LAST_INT32_YEAR -> 1 <= jm <= 12 -> 1 <= jd <= 30 ->
  jalaliToGregorian jy jm (jd + 1) = next_day (jalaliToGregorian jy jm jd).
Proof.
  intros Hjy Hjm Hjd. rewrite !jalaliToGregorian_halves.
  pose proof (jalali_g_day_no_int32 jy jm (jd + 1) Hjy Hjm ltac:(lia)) as Hq.
  rewrite (jalali_g_day_no_day jy jm jd 1) in Hq |- *.
  apply gregorian_of_day_no_next; [|exact Hq].
  apply jalali_g_day_no_nonneg; lia.
Qed.

(** The step at Jalali 1403-01-01. *)
Lemma jalaliToGregorian_next_day_in_month_witness :
  jalaliToGregorian 1403 1 (1 + 1) = next_day (jalaliToGregorian 1403 1 1).
Proof.
  apply jalaliToGregorian_next_day_in_month;
    unfold JALALI_EPOCH_YEAR, LAST_INT32_YEAR; lia.
Defined.

(** X2.  The first day of a Jalali month converts to the calendar day after
    the conversion of the last day of the month before it, the first six
    months having 31 days and the next five 30. *)
Theorem jalaliToGregorian_month_rollover (jy jm : Z) :
  JALALI_EPOCH_YEAR <= jy <= LAST_INT32_YEAR -> 1 <= jm <= 11 ->
  jalaliToGregorian jy (jm + 1) 1 =
  next_day (jalaliToGregorian jy jm (jalali_month_length jm)).
Proof.
  intros Hjy Hjm. rewrite !jalaliToGregorian_halves.
  assert (Hlen : 30 <= jalali_month_length jm <= 31)
    by (unfold jalali_month_length; destruct (jm <=? 6); lia).
  assert (Hday : jalali_g_day_no jy (jm + 1) 1 =
                 jalali_g_day_no jy jm (jalali_month_length jm) + 1).
  { rewrite jalali_g_day_no_month by lia.
    rewrite <- (jalali_g_day_no_day jy jm 1 (jalali_month_length jm)).
    rewrite <- (jalali_g_day_no_day jy jm (jalali_month_length jm) 1).
    f_equal. lia. }
  pose proof (jalali_g_day_no_int32 jy (jm + 1) 1 Hjy ltac:(lia) ltac:(lia)) as Hq.
  rewrite Hday in Hq |- *.
  apply gregorian_of_day_no_next; [|exact Hq].
  apply jalali_g_day_no_nonneg; lia.
Qed.

(** The rollover from the sixth to the seventh month of 1403. *)
Lemma jalaliToGregorian_month_rollover_witness :
  jalaliToGregorian 1403 (6 + 1) 1 =
  next_day (jalaliToGregorian 1403 6 (jalali_month_length 6)).
Proof.
  apply jalaliToGregorian_month_rollover;
    unfold JALALI_EPOCH_YEAR, LAST_INT32_YEAR; lia.
Defined.

(** X3.  A day number beyond the length of its month is not rejected: it is
    carried into the following month.  For the years from 0 up to the int32
    bound, where every number of the computation is an exact integer, a
    month from 1 to 11 and a day from 1 to 31, the day that many days past
    the end of the month converts to the same date as that day of the next
    month; day 31 of a 30-day month is day 1 of the next month. *)
Theorem jalaliToGregorian_day_overflow (jy jm jd : Z) :
  0 <= jy <= LAST_INT32_YEAR -> 1 <= jm <= 11 -> 1 <= jd <= 31 ->
  jalaliToGregorian jy jm (jalali_month_length jm + jd) =
  jalaliToGregorian jy (jm + 1) jd.
Proof.
  intros _ Hjm _. rewrite !jalaliToGregorian_halves. f_equal.
  rewrite jalali_g_day_no_month by assumption.
  rewrite <- (jalali_g_day_no_day jy jm jd (jalali_month_length jm)).
  f_equal. lia.
Qed.

(** Day 31 of the seventh month of 1403 is day 1 of the eighth. *)
Lemma jalaliToGregorian_day_overflow_witness :
  jalaliToGregorian 1403 7 (jalali_month_length 7 + 1) = jalaliToGregorian 1403 (7 + 1) 1.
Proof.
  apply jalaliToGregorian_day_overflow; unfold LAST_INT32_YEAR; lia.
Defined.

(** X4.  The first day of a Jalali year converts to the calendar day after
    the conversion of the last day of the year before it, and that last day
    is day 30 of month 12 in the years at positions 0, 4, ..., 28 of the
    33-year cycle from 979 and day 29 in the others; in the others day 30
    of month 12 converts to the same date as the next new year's day. *)
Theorem jalaliToGregorian_year_rollover (jy : Z) :
  JALALI_EPOCH_YEAR <= jy < LAST_INT32_YEAR ->
  jalaliToGregorian (jy + 1) 1 1 =
    next_day (jalaliToGregorian jy 12 (jalali_last_day jy)) /\
  (jalali_leap jy = false ->
   jalaliToGregorian jy 12 30 = jalaliToGregorian (jy + 1) 1 1).
Proof.
  intros Hjy. rewrite !jalaliToGregorian_halves.
  assert (Hlast : 29 <= jalali_last_day jy <= 30)
    by (unfold jalali_last_day; destruct (jalali_leap jy); lia).
  pose proof (jalali_g_day_no_year jy Hjy) as Hday.
  split.
  - pose proof (jalali_g_day_no_int32 (jy + 1) 1 1
                  ltac:(unfold JALALI_EPOCH_YEAR in *; lia) ltac:(lia) ltac:(lia)) as Hq.
    rewrite Hday in Hq |- *.
    apply gregorian_of_day_no_next; [|exact Hq].
    apply jalali_g_day_no_nonneg; lia.
  - intros Hleap. f_equal. rewrite Hday.
    unfold jalali_last_day. rewrite Hleap.
    rewrite <- (jalali_g_day_no_day jy 12 29 1). reflexivity.
Qed.

(** The new year's day of 1404 follows 1403-12-30. *)
Lemma jalaliToGregorian_year_rollover_witness :
  jalaliToGregorian (1403 + 1) 1 1 =
  next_day (jalaliToGregorian 1403 12 (jalali_last_day 1403)).
Proof.
  apply (proj1 (jalaliToGregorian_year_rollover 1403
                  ltac:(unfold JALALI_EPOCH_YEAR, LAST_INT32_YEAR; lia))).
Defined.

Lemma next_day_year (g : Z * Z * Z) :
  year_of g <= year_of (next_day g) <= year_of g + 1.
Proof.
  destruct g as [[y m] d]. unfold next_day, year_of.
  destruct (d <? daysInMonth y m); [simpl; lia|].
  destruct (m <? 12); simpl; lia.
Qed.

(** The Gregorian year does not decrease with the day number. *)
Lemma gregorian_year_monotone (g k : Z) :
  0 <= g -> 0 <= k -> (g + k) / 146097 < 2 ^ 31 ->
  year_of (gregorian_of_day_no g) <= year_of (gregorian_of_day_no (g + k)).
Proof.
  intros Hg Hk. revert k Hk.
  apply (natlike_ind (fun k => (g + k) / 146097 < 2 ^ 31 ->
            year_of (gregorian_of_day_no g) <= year_of (gregorian_of_day_no (g + k)))).
  - intros _. rewrite Z.add_0_r. lia.
  - intros k Hk IH Hq.
    replace (g + Z.succ k) with (g + k + 1) in Hq |- * by lia.
    rewrite gregorian_of_day_no_next by lia.
    pose proof (next_day_year (gregorian_of_day_no (g + k))).
    assert ((g + k) / 146097 < 2 ^ 31) by dlia.
    lia.
Qed.

Lemma year_offset_checked : all_from (Z.to_nat 9021) 979 year_offset_check = true.
Proof. vm_compute. reflexivity. Qed.

Lemma year_offset_bounds (jy jm jd : Z) :
  979 <= jy <= 9999 -> 1 <= jm <= 12 -> 1 <= jd <= 31 ->
  jy + 621 <= year_of (jalaliToGregorian jy jm jd) <= jy + 622.
Proof.
  intros Hjy Hjm Hjd.
  pose proof (all_from_sound _ _ _ year_offset_checked jy ltac:(lia)) as Hchk.
  unfold year_offset_check in Hchk.
  apply andb_true_iff in Hchk as [Hfirst Hlast].
  apply Z.eqb_eq in Hfirst. apply Z.leb_le in Hlast.
  rewrite jalaliToGregorian_halves in Hfirst |- *.
  assert (Hepoch : JALALI_EPOCH_YEAR <= jy <= LAST_INT32_YEAR)
    by (unfold JALALI_EPOCH_YEAR, LAST_INT32_YEAR; lia).
  pose proof (jalali_g_day_no_nonneg jy 1 1 ltac:(lia) ltac:(lia) ltac:(lia)) as Hg0.
  pose proof (elapsed_month_days_bounds (jm - 1) ltac:(lia)) as Hm.
  assert (Hoff : jalali_g_day_no jy jm jd =
                 jalali_g_day_no jy 1 1 + (Spec.elapsed_month_days (jm - 1) + (jd - 1))).
  { rewrite !jalali_g_day_no_spec by (assumption || lia).
    change (Spec.elapsed_month_days (1 - 1)) with 0. lia. }
  assert (Hsmall : (jalali_g_day_no jy 1 1 + 366) / 146097 < 2 ^ 31).
  { pose proof (jalali_g_day_no_int32 jy 1 1 Hepoch ltac:(lia) ltac:(lia)).
    rewrite jalali_g_day_no_spec in * by (assumption || lia).
    unfold Spec.day_count in *. change (Spec.elapsed_month_days (1 - 1)) with 0 in *.
    apply Z.div_lt_upper_bound; [lia|]. dlia. }
  rewrite Hoff. split.
  - rewrite <- Hfirst. apply gregorian_year_monotone; try lia. dlia.
  - etransitivity; [|exact Hlast].
    replace (jalali_g_day_no jy 1 1 + 366)
      with (jalali_g_day_no jy 1 1 + (Spec.elapsed_month_days (jm - 1) + (jd - 1))
            + (366 - (Spec.elapsed_month_days (jm - 1) + (jd - 1)))) by lia.
    apply gregorian_year_monotone; try lia.
    replace (jalali_g_day_no jy 1 1 + (Spec.elapsed_month_days (jm - 1) + (jd - 1))
             + (366 - (Spec.elapsed_month_days (jm - 1) + (jd - 1))))
      with (jalali_g_day_no jy 1 1 + 366) by lia.
    exact Hsmall.
Qed.

(** X5.  For the Jalali years from 979 to 9999 (all that four digits can
    spell from the epoch year on), the Gregorian year of the conversion is
    the Jalali year plus 621 or plus 622. *)
Theorem jalaliToGregorian_year_offset (jy jm jd : Z) :
  979 <= jy <= 9999 -> 1 <= jm <= 12 -> 1 <= jd <= 31 ->
  year_of (jalaliToGregorian jy jm jd) = jy + 621 \/
  year_of (jalaliToGregorian jy jm jd) = jy + 622.
Proof.
  intros Hjy Hjm Hjd.
  pose proof (year_offset_bounds jy jm jd Hjy Hjm Hjd). lia.
Qed.

(** The offset at Jalali 1403-12-29, which falls in 2025. *)
Lemma jalaliToGregorian_year_offset_witness :
  year_of (jalaliToGregorian 1403 12 29) = 1403 + 621 \/
  year_of (jalaliToGregorian 1403 12 29) = 1403 + 622.
Proof. apply jalaliToGregorian_year_offset; lia. Defined.

(** ** Texts and numerals *)

Lemma decimal_value_bounds (ds : list N) :
  all_digits ds -> 0 <= decimal_value ds < 10 ^ Z.of_nat (length ds).
Proof.
  unfold all_digits. induction 1 as [|c ds Hc _ IH].
  - simpl. lia.
  - cbn [decimal_value length]. rewrite Nat2Z.inj_succ, Z.pow_succ_r by lia.
    unfold is_digit in Hc. apply andb_true_iff in Hc as [Hlo Hhi].
    apply N.leb_le in Hlo, Hhi.
    assert (0 < 10 ^ Z.of_nat (length ds)) by (apply Z.pow_pos_nonneg; lia).
    nia.
Qed.

Lemma decimal_value_leading_zeros (k : nat) (ds : list N) :
  decimal_value (replicate k 48%N ++ ds) = decimal_value ds.
Proof.
  induction k as [|k IH]; [reflexivity|].
  cbn [replicate app decimal_value]. rewrite IH. lia.
Qed.

Lemma padStart_length (s : list N) (n : nat) (c : N) :
  length (padStart s n c) = Nat.max n (length s).
Proof.
  unfold padStart. destruct (n <=? length s)%nat eqn:Hn.
  - apply Nat.leb_le in Hn. lia.
  - apply Nat.leb_gt in Hn. rewrite length_app, length_replicate. lia.
Qed.

Lemma padStart_digits (s : list N) (n : nat) :
  all_digits s -> all_digits (padStart s n 48%N).
Proof.
  intros Hs. unfold padStart. destruct (n <=? length s)%nat; [exact Hs|].
  unfold all_digits. apply Forall_app. split; [|exact Hs].
  apply Forall_replicate. reflexivity.
Qed.

Lemma padStart_decimal_value (s : list N) (n : nat) :
  decimal_value (padStart s n 48%N) = decimal_value s.
Proof.
  unfold padStart. destruct (n <=? length s)%nat; [reflexivity|].
  apply decimal_value_leading_zeros.
Qed.

Lemma number_text_checked : all_from (Z.to_nat 10000) 0 number_text_check = true.
Proof. vm_compute. reflexivity. Qed.

Lemma number_text (n : Z) :
  0 <= n <= 9999 ->
  all_digits (String_of_number n) /\
  decimal_value (String_of_number n) = n /\
  length (String_of_number n) = decimal_width n.
Proof.
  intros Hn.
  pose proof (all_from_sound _ _ _ number_text_checked n ltac:(lia)) as Hchk.
  unfold number_text_check in Hchk. cbv zeta in Hchk.
  apply andb_true_iff in Hchk as [Hchk Hlen].
  apply andb_true_iff in Hchk as [Hdig Hval].
  apply Z.eqb_eq in Hval. apply Nat.eqb_eq in Hlen.
  split; [|split; assumption].
  unfold all_digits. apply List.Forall_forall. intros c Hc.
  rewrite forallb_forall in Hdig. apply Hdig, Hc.
Qed.

(** ** What the parser returns *)

Lemma parseJalaliDateString_some (s : list N) (jy jm jd : Z) :
  parseJalaliDateString s = Some (jy, jm, jd) ->
  exists y mo d,
    date_shape (spec_normalize s) y mo d /\
    jy = decimal_value y /\ jm = decimal_value mo /\ jd = decimal_value d /\
    1 <= jm <= 12 /\ 1 <= jd <= 31.
Proof.
  rewrite parseJalaliDateString_fields.
  destruct (date_fields (spec_normalize s)) as [[[y mo] d]|] eqn:Hf; [|discriminate].
  destruct ((decimal_value mo <? 1) || (decimal_value mo >? 12)
            || (decimal_value d <? 1) || (decimal_value d >? 31)) eqn:Ht;
    [discriminate|].
  intros [= <- <- <-]. apply out_of_range_test in Ht.
  exists y, mo, d. apply date_fields_shape in Hf. intuition.
Qed.

Lemma parseJalaliDateString_range (s : list N) (jy jm jd : Z) :
  parseJalaliDateString s = Some (jy, jm, jd) ->
  0 <= jy <= 9999 /\ 1 <= jm <= 12 /\ 1 <= jd <= 31.
Proof.
  intros Hp. apply parseJalaliDateString_some in Hp
    as (y & mo & d & Hs & -> & -> & -> & Hm & Hd).
  destruct Hs as (s1 & s2 & _ & _ & _ & (Hy & _) & Dy & _).
  pose proof (decimal_value_bounds y Dy) as Hb. rewrite Hy in Hb.
  change (10 ^ Z.of_nat 4) with 10000 in Hb. lia.
Qed.

(** X6.  Whatever [parseJalaliDateString] accepts lies in the box it checks:
    a year from 0 to 9999, a month from 1 to 12 and a day from 1 to 31. *)
Theorem parseJalaliDateString_in_range (s : list N) (jy jm jd : Z) :
  parseJalaliDateString s = Some (jy, jm, jd) ->
  0 <= jy <= 9999 /\ 1 <= jm <= 12 /\ 1 <= jd <= 31.
Proof. apply parseJalaliDateString_range. Qed.

(** The box at the text 1403/12/29. *)
Lemma parseJalaliDateString_in_range_witness :
  0 <= 1403 <= 9999 /\ 1 <= 12 <= 12 /\ 1 <= 29 <= 31.
Proof.
  apply (parseJalaliDateString_in_range (js "1403/12/29")).
  vm_compute. reflexivity.
Defined.

(** ** White space around the text *)

Lemma trimStart_whitespace_app (l s : list N) :
  all_whitespace l -> trimStart (l ++ s) = trimStart s.
Proof.
  unfold all_whitespace. induction 1 as [|c l Hc _ IH]; [reflexivity|].
  cbn [app trimStart]. rewrite Hc. exact IH.
Qed.

Lemma trimStart_whitespace (l : list N) : all_whitespace l -> trimStart l = [].
Proof.
  intros Hl. rewrite <- (app_nil_r l). rewrite trimStart_whitespace_app by exact Hl.
  reflexivity.
Qed.

Lemma trimStart_nil_whitespace (s : list N) : trimStart s = [] -> all_whitespace s.
Proof.
  unfold all_whitespace. induction s as [|c s IH]; intros H; [constructor|].
  cbn [trimStart] in H. destruct (is_js_whitespace c) eqn:Hc; [|discriminate].
  constructor; [exact Hc | apply IH, H].
Qed.

Lemma trimStart_app_keep (s l : list N) :
  trimStart s <> [] -> trimStart (s ++ l) = trimStart s ++ l.
Proof.
  induction s as [|c s IH]; intros Hs; [contradiction|].
  cbn [app trimStart] in *. destruct (is_js_whitespace c); [apply IH, Hs | reflexivity].
Qed.

Lemma trimEnd_whitespace_app (s l : list N) :
  all_whitespace l -> trimEnd (s ++ l) = trimEnd s.
Proof.
  intros Hl. unfold trimEnd. rewrite rev_app_distr.
  rewrite trimStart_whitespace_app; [reflexivity|].
  unfold all_whitespace. apply List.Forall_rev, Hl.
Qed.

Lemma trim_whitespace_around (l1 s l2 : list N) :
  all_whitespace l1 -> all_whitespace l2 -> trim (l1 ++ s ++ l2) = trim s.
Proof.
  intros H1 H2. unfold trim. rewrite trimStart_whitespace_app by exact H1.
  destruct (trimStart s) as [|c t] eqn:Hs.
  - apply trimStart_nil_whitespace in Hs.
    rewrite trimStart_whitespace_app by exact Hs.
    rewrite trimStart_whitespace by exact H2. reflexivity.
  - rewrite trimStart_app_keep by (rewrite Hs; discriminate).
    rewrite Hs. apply trimEnd_whitespace_app, H2.
Qed.

(** ** Texts of the date shape are already normal *)

Lemma digit_not_fa_digit (c : N) : is_digit c = true -> is_fa_digit c = false.
Proof.
  unfold is_digit, is_fa_digit. intros H. apply andb_true_iff in H as [Hlo Hhi].
  apply N.leb_le in Hlo, Hhi.
  replace (0x06F0 <=? c)%N with false by (symmetry; apply N.leb_gt; lia).
  reflexivity.
Qed.

Lemma trimStart_digit_first (c : N) (l : list N) :
  is_digit c = true -> trimStart (c :: l) = c :: l.
Proof. intros Hc. cbn [trimStart]. rewrite digit_not_whitespace by exact Hc. reflexivity. Qed.

Lemma map_persian_to_latin_digits (l : list N) :
  all_digits l -> map persian_to_latin l = l.
Proof.
  unfold all_digits. induction 1 as [|c l Hc _ IH]; [reflexivity|].
  cbn [map]. rewrite IH. unfold persian_to_latin.
  rewrite digit_not_fa_digit by exact Hc. reflexivity.
Qed.

Lemma persian_to_latin_separator (c : N) : is_separator c -> persian_to_latin c = c.
Proof. intros [-> | ->]; reflexivity. Qed.

Lemma date_shape_normal (n y mo d : list N) :
  date_shape n y mo d -> spec_normalize n = n.
Proof.
  intros (s1 & s2 & -> & Hs1 & Hs2 & (Hy & Hmo & Hd) & Dy & Dmo & Dd).
  unfold spec_normalize.
  assert (Htrim : trim (y ++ s1 :: mo ++ s2 :: d) = y ++ s1 :: mo ++ s2 :: d).
  { unfold trim, trimEnd.
    destruct y as [|c y]; [simpl in Hy; lia|].
    pose proof Dy as Dy'. unfold all_digits in Dy'.
    apply Forall_cons in Dy' as [Hc _].
    cbn [app]. rewrite trimStart_digit_first by exact Hc.
    destruct (rev d) as [|e rd] eqn:Hrd.
    { apply (f_equal (@length N)) in Hrd. rewrite length_rev in Hrd. simpl in Hrd. lia. }
    assert (He : is_digit e = true).
    { unfold all_digits in Dd. rewrite List.Forall_forall in Dd. apply Dd.
      apply in_rev. rewrite Hrd. left. reflexivity. }
    assert (Hsplit : c :: y ++ s1 :: mo ++ s2 :: d = (c :: y ++ s1 :: mo ++ [s2]) ++ d).
    { cbn [app]. f_equal. rewrite <- app_assoc. cbn [app]. f_equal. f_equal.
      rewrite <- app_assoc. reflexivity. }
    rewrite Hsplit, rev_app_distr, Hrd. cbn [app].
    rewrite trimStart_digit_first by exact He.
    change (e :: rd ++ rev (c :: y ++ s1 :: mo ++ [s2]))
      with ((e :: rd) ++ rev (c :: y ++ s1 :: mo ++ [s2])).
    rewrite <- Hrd, <- rev_app_distr, rev_involutive. reflexivity. }
  rewrite Htrim.
  rewrite map_app. cbn [map]. rewrite map_app. cbn [map].
  rewrite !map_persian_to_latin_digits, !persian_to_latin_separator by assumption.
  reflexivity.
Qed.



(** X7.  White space before and after the typed text does not matter to
    [parseJalaliDateString]. *)
Theorem parseJalaliDateString_ignores_padding (l1 s l2 : list N) :
  all_whitespace l1 -> all_whitespace l2 ->
  parseJalaliDateString (l1 ++ s ++ l2) = parseJalaliDateString s.
Proof.
  intros H1 H2. rewrite !parseJalaliDateString_fields. unfold spec_normalize.
  rewrite trim_whitespace_around by assumption. reflexivity.
Qed.

(** A tab and a space before 1403/01/01 and a line feed after it. *)
Lemma parseJalaliDateString_ignores_padding_witness :
  parseJalaliDateString ([9; 32]%N ++ js "1403/01/01" ++ [10]%N) =
  parseJalaliDateString (js "1403/01/01").
Proof.
  apply parseJalaliDateString_ignores_padding;
    unfold all_whitespace; repeat constructor.
Defined.

Lemma jalali_text_shape (sep : N) (jy jm jd : Z) :
  is_separator sep -> 0 <= jy <= 9999 -> 1 <= jm <= 12 -> 1 <= jd <= 31 ->
  date_shape (jalali_text sep jy jm jd)
    (padStart (String_of_number jy) 4 48%N) (String_of_number jm) (String_of_number jd).
Proof.
  intros Hsep Hjy Hjm Hjd.
  destruct (number_text jy ltac:(lia)) as (Dy & _ & Ly).
  destruct (number_text jm ltac:(lia)) as (Dm & _ & Lm).
  destruct (number_text jd ltac:(lia)) as (Dd & _ & Ld).
  exists sep, sep. split; [reflexivity|].
  split; [exact Hsep|]. split; [exact Hsep|].
  split.
  - rewrite padStart_length, Ly, Lm, Ld. unfold decimal_width.
    repeat match goal with
           | |- context [?a <? ?b] => destruct (Z.ltb_spec a b)
           end; lia.
  - split; [apply padStart_digits, Dy|]. split; assumption.
Qed.

(** X8.  Every date of the box is parsed back from its text: the year on
    four digits, the month and the day as they print, with either
    separator. *)
Theorem parseJalaliDateString_of_text (sep : N) (jy jm jd : Z) :
  is_separator sep -> 0 <= jy <= 9999 -> 1 <= jm <= 12 -> 1 <= jd <= 31 ->
  parseJalaliDateString (jalali_text sep jy jm jd) = Some (jy, jm, jd).
Proof.
  intros Hsep Hjy Hjm Hjd.
  pose proof (jalali_text_shape sep jy jm jd Hsep Hjy Hjm Hjd) as Hs.
  rewrite parseJalaliDateString_fields, (date_shape_normal _ _ _ _ Hs).
  apply date_fields_shape in Hs. rewrite Hs.
  rewrite padStart_decimal_value.
  destruct (number_text jy ltac:(lia)) as (_ & -> & _).
  destruct (number_text jm ltac:(lia)) as (_ & -> & _).
  destruct (number_text jd ltac:(lia)) as (_ & -> & _).
  replace ((jm <? 1) || (jm >? 12) || (jd <? 1) || (jd >? 31)) with false
    by (symmetry; apply out_of_range_test; lia).
  reflexivity.
Qed.

(** The text 0979-1-1 of the epoch date. *)
Lemma parseJalaliDateString_of_text_witness :
  parseJalaliDateString (jalali_text 45%N 979 1 1) = Some (979, 1, 1).
Proof.
  apply parseJalaliDateString_of_text; [right; reflexivity | lia | lia | lia].
Defined.

Lemma daysInMonth_le_31 (y m : Z) : daysInMonth y m <= 31.
Proof.
  unfold daysInMonth.
  repeat match goal with
         | |- context [if ?b then _ else _] => destruct b
         end; lia.
Qed.

Lemma jalaliToGregorian_valid (jy jm jd : Z) :
  JALALI_EPOCH_YEAR <= jy -> 1 <= jm <= 12 -> 1 <= jd ->
  valid_gregorian (jalaliToGregorian jy jm jd).
Proof.
  intros Hjy Hjm Hjd. rewrite jalaliToGregorian_halves.
  apply gregorian_of_day_no_valid, jalali_g_day_no_nonneg; assumption.
Qed.

Lemma toGregorianISO_shape (s : list N) (jy jm jd : Z) :
  parseJalaliDateString s = Some (jy, jm, jd) -> 979 <= jy <= 9377 ->
  exists y m d : list N,
    toGregorianISO s = Some (y ++ 45%N :: m ++ 45%N :: d) /\
    (length y = 4 /\ length m = 2 /\ length d = 2)%nat /\
    all_digits y /\ all_digits m /\ all_digits d /\
    (decimal_value y, decimal_value m, decimal_value d) = jalaliToGregorian jy jm jd /\
    valid_gregorian (decimal_value y, decimal_value m, decimal_value d).
Proof.
  intros Hp Hjy.
  destruct (parseJalaliDateString_range s jy jm jd Hp) as (_ & Hjm & Hjd).
  rewrite toGregorianISO_compose, Hp. cbn [option_map].
  pose proof (year_offset_bounds jy jm jd ltac:(lia) Hjm Hjd) as Hyear.
  pose proof (jalaliToGregorian_valid jy jm jd
                ltac:(unfold JALALI_EPOCH_YEAR; lia) Hjm ltac:(lia)) as Hvalid.
  destruct (jalaliToGregorian jy jm jd) as [[gy gm] gd].
  unfold year_of in Hyear. cbn [fst] in Hyear.
  pose proof Hvalid as (Hgm & Hgd). pose proof (daysInMonth_le_31 gy gm) as H31.
  destruct (number_text gy ltac:(lia)) as (Dy & Vy & Ly).
  destruct (number_text gm ltac:(lia)) as (Dm & Vm & Lm).
  destruct (number_text gd ltac:(lia)) as (Dd & Vd & Ld).
  exists (String_of_number gy), (padStart (String_of_number gm) 2 48%N),
         (padStart (String_of_number gd) 2 48%N).
  split; [reflexivity|].
  rewrite !padStart_length, !padStart_decimal_value, Ly, Lm, Ld, Vy, Vm, Vd.
  split.
  - unfold decimal_width.
    repeat match goal with
           | |- context [?a <? ?b] => destruct (Z.ltb_spec a b)
           end; lia.
  - split; [exact Dy|].
    split; [apply padStart_digits, Dm|].
    split; [apply padStart_digits, Dd|].
    split; [reflexivity | exact Hvalid].
Qed.

(** X9.  For a text that parses to a Jalali year from 979 to 9377,
    [toGregorianISO] returns ten units: four digits, a hyphen, two digits,
    a hyphen, two digits; read as decimal numbers the three fields are the
    year, month and day that [jalaliToGregorian] returns, and they form a
    valid Gregorian date. *)
Theorem toGregorianISO_well_formed (s : list N) (jy jm jd : Z) :
  parseJalaliDateString s = Some (jy, jm, jd) -> 979 <= jy <= 9377 ->
  exists y m d : list N,
    toGregorianISO s = Some (y ++ 45%N :: m ++ 45%N :: d) /\
    (length y = 4 /\ length m = 2 /\ length d = 2)%nat /\
    all_digits y /\ all_digits m /\ all_digits d /\
    (decimal_value y, decimal_value m, decimal_value d) = jalaliToGregorian jy jm jd /\
    valid_gregorian (decimal_value y, decimal_value m, decimal_value d).
Proof. apply toGregorianISO_shape. Qed.

(** The text 1403/12/29 becomes 2025-03-19. *)
Lemma toGregorianISO_well_formed_witness :
  exists y m d : list N,
    toGregorianISO (js "1403/12/29") = Some (y ++ 45%N :: m ++ 45%N :: d) /\
    (length y = 4 /\ length m = 2 /\ length d = 2)%nat /\
    all_digits y /\ all_digits m /\ all_digits d /\
    (decimal_value y, decimal_value m, decimal_value d) = jalaliToGregorian 1403 12 29 /\
    valid_gregorian (decimal_value y, decimal_value m, decimal_value d).
Proof.
  apply toGregorianISO_well_formed; [vm_compute; reflexivity | lia].
Defined.

(** C4 (as amended).  [toGregorianISO] returns undefined exactly when
    [parseJalaliDateString] returns null.  When the text parses to a Jalali
    year from 979 to 9377 it returns four digits, a hyphen, two digits, a
    hyphen, two digits, which read as decimal numbers are the year, the
    month and the day that [jalaliToGregorian] returns for the parsed
    triple: YYYY-MM-DD with month and day zero-padded.  When it returns
    undefined, the [params] of the sales-summary request carry no entry for
    that bound, and an entry is never the empty string. *)
Theorem toGregorianISO_spec (s : list N) :
  (toGregorianISO s = None <-> parseJalaliDateString s = None) /\
  (forall jy jm jd,
     parseJalaliDateString s = Some (jy, jm, jd) -> 979 <= jy <= 9377 ->
     exists y m d : list N,
       toGregorianISO s = Some (y ++ 45%N :: m ++ 45%N :: d) /\
       (length y = 4 /\ length m = 2 /\ length d = 2)%nat /\
       all_digits y /\ all_digits m /\ all_digits d /\
       (decimal_value y, decimal_value m, decimal_value d) =
         jalaliToGregorian jy jm jd) /\
  (toGregorianISO s = None ->
   forall other : option (list N),
     getSalesSummary_params (toGregorianISO s) other !! "from" = None /\
     getSalesSummary_params other (toGregorianISO s) !! "to" = None /\
     getSalesSummary_params (or_undefined (toGregorianISO s)) other !! "from" = None /\
     getSalesSummary_params other (or_undefined (toGregorianISO s)) !! "to" = None) /\
  (forall (from to : option (list N)) (k : string),
     getSalesSummary_params from to !! k <> Some []) /\
  toGregorianISO (js "garbage") = None /\
  toGregorianISO (js "1403/01/01") = Some (js "2024-03-20") /\
  toGregorianISO (js "1403/7/9") = Some (js "2024-09-30") /\
  sales_query_params {| fromJ := js "garbage"; toJ := js "1403/12/29" |} =
    {[ "to" := js "2025-03-19" ]}.
Proof.
  split; [|split; [|split; [|split; [|repeat split; vm_compute; reflexivity]]]].
  - rewrite toGregorianISO_compose.
    destruct (parseJalaliDateString s) as [[[jy jm] jd]|]; simpl;
      split; intros H; congruence.
  - intros jy jm jd Hp Hjy.
    destruct (toGregorianISO_shape s jy jm jd Hp Hjy)
      as (y & m & d & Hout & Hlen & Dy & Dm & Dd & Hval & _).
    exists y, m, d. auto 10.
  - intros -> other.
    rewrite !getSalesSummary_params_from, !getSalesSummary_params_to. auto.
  - intros from to k.
    destruct (decide (k = "from")) as [-> | Hf];
      [|destruct (decide (k = "to")) as [-> | Ht]].
    + rewrite getSalesSummary_params_from. destruct from as [[|c from]|]; discriminate.
    + rewrite getSalesSummary_params_to. destruct to as [[|c to]|]; discriminate.
    + rewrite getSalesSummary_params_other by assumption. discriminate.
Qed.

(** The shape at the text 1403/01/01. *)
Lemma toGregorianISO_spec_witness :
  exists y m d : list N,
    toGregorianISO (js "1403/01/01") = Some (y ++ 45%N :: m ++ 45%N :: d) /\
    (length y = 4 /\ length m = 2 /\ length d = 2)%nat /\
    all_digits y /\ all_digits m /\ all_digits d /\
    (decimal_value y, decimal_value m, decimal_value d) =
      jalaliToGregorian 1403 1 1.
Proof.
  apply (proj1 (proj2 (toGregorianISO_spec (js "1403/01/01"))));
    [vm_compute; reflexivity | lia].
Defined.

(** C4 (as stated) fails: the text 0978/01/01 parses, and what
    [toGregorianISO] returns for it, 1600-01--285, is not of the form
    YYYY-MM-DD, its day being neither two characters long nor made of
    digits. *)
Lemma toGregorianISO_pre_epoch_text :
  parseJalaliDateString (js "0978/01/01") = Some (978, 1, 1) /\
  toGregorianISO (js "0978/01/01") = Some (js "1600-01--285") /\
  ~ (exists y m d : list N,
       js "1600-01--285" = y ++ 45%N :: m ++ 45%N :: d /\
       (length y = 4 /\ length m = 2 /\ length d = 2)%nat).
Proof.
  split; [vm_compute; reflexivity|].
  split; [vm_compute; reflexivity|].
  intros (y & m & d & Heq & Hy & Hm & Hd).
  apply (f_equal (@length N)) in Heq.
  rewrite length_app in Heq. cbn [length] in Heq.
  rewrite length_app in Heq. cbn [length] in Heq.
  rewrite Hy, Hm, Hd in Heq. vm_compute in Heq. discriminate Heq.
Qed.

Lemma toGregorianISO_not_empty (s : list N) : toGregorianISO s <> Some [].
Proof.
  rewrite toGregorianISO_compose.
  destruct (parseJalaliDateString s) as [[[jy jm] jd]|]; [|discriminate].
  cbn [option_map]. destruct (jalaliToGregorian jy jm jd) as [[gy gm] gd].
  unfold iso_format. intros [= H].
  apply app_eq_nil in H as [_ H]. discriminate H.
Qed.

(** X10.  The request of the sales report carries exactly the bounds the
    two fields give: [from] is the conversion of the first field and [to]
    that of the second, each absent when its field does not parse, and
    there is no other parameter. *)
Theorem sales_query_params_bounds (st : SalesReportState) :
  sales_query_params st !! "from" = toGregorianISO (fromJ st) /\
  sales_query_params st !! "to" = toGregorianISO (toJ st) /\
  (forall k : string, k <> "from" -> k <> "to" -> sales_query_params st !! k = None).
Proof.
  unfold sales_query_params, fromG, toG.
  assert (Hor : forall s, (if truthy (or_undefined (toGregorianISO s))
                           then or_undefined (toGregorianISO s) else None)
                          = toGregorianISO s).
  { intros s. pose proof (toGregorianISO_not_empty s) as Hne.
    destruct (toGregorianISO s) as [[|c l]|]; [contradiction | reflexivity | reflexivity]. }
  rewrite getSalesSummary_params_from, getSalesSummary_params_to, !Hor.
  split; [reflexivity|]. split; [reflexivity|].
  intros k Hf Ht. apply getSalesSummary_params_other; assumption.
Qed.

(** ** The list getters of the API service *)
Section ResponseProperties.
Context {number : Type} (number_truthy : number -> bool).

Ltac body_cases d :=
  destruct d as [| | b | n | s | items | fields]; cbn;
  repeat match goal with
         | |- context [?m !! ?k] =>
             let v := fresh "v" in
             destruct (m !! k) as [v|]; cbn
         | |- context [match ?v with VUndefined => _ | _ => _ end] =>
             is_var v; destruct v; cbn
         | |- context [if ?b then _ else _] => destruct b eqn:?; cbn
         end.

Lemma isArray_inv (v : value number) :
  isArray v = true -> exists items, v = VArray items.
Proof. destruct v; try discriminate. eauto. Qed.

Ltac array_cases :=
  cbn in *;
  repeat match goal with
         | H : _ && _ = true |- _ => apply andb_true_iff in H as [? ?]
         | H : isArray (get_opt ?v _) = _ |- _ => is_var v; destruct v; cbn in *
         | H : isArray (default _ (get ?v _)) = _ |- _ =>
             is_var v; destruct v; cbn in *
         | H : context [?m !! ?k] |- _ =>
             let v := fresh "v" in
             destruct (m !! k) as [v|]; cbn in *
         | H : isArray ?v = true |- _ =>
             is_var v; apply isArray_inv in H as [? ->]; cbn in *
         | H : isArray _ = true |- _ => discriminate H
         end.

(** X11.  The list getters that test their body before reading it
    ([getUsers], [getReturns], [getReturnsAdmin], [getFooterSettings],
    [getDiningTables], [getAllComments]) never throw and return an array,
    whatever the body is. *)
Theorem guarded_getters_return_arrays (d : value number) :
  returns_array (getUsers number number_truthy d) /\
  returns_array (getReturns number number_truthy d) /\
  returns_array (getReturnsAdmin number number_truthy d) /\
  returns_array (getFooterSettings d) /\
  returns_array (getDiningTables d) /\
  returns_array (getAllComments number number_truthy d).
Proof.
  unfold returns_array, getUsers, getReturns, getReturnsAdmin, getFooterSettings,
    getDiningTables, getAllComments, array_or_empty.
  repeat split; body_cases d; array_cases; eauto; try discriminate.
Qed.

(** X12.  [getSalesSummary] (and [getBanners], written in the same words)
    reads [success] off the body without testing the body first: it throws
    exactly when the body is [undefined] or [null], and on every other body
    it returns what [getUsers] returns, an array. *)
Theorem getSalesSummary_result_throws_on_null (d : value number) :
  (getSalesSummary_result number number_truthy d = None <->
     d = VUndefined \/ d = VNull) /\
  (d <> VUndefined -> d <> VNull ->
     getSalesSummary_result number number_truthy d = getUsers number number_truthy d /\
     returns_array (getSalesSummary_result number number_truthy d)) /\
  getBanners number number_truthy d = getSalesSummary_result number number_truthy d /\
  getUsers number number_truthy VNull = Some (VArray []).
Proof.
  unfold returns_array, getSalesSummary_result, getBanners, getUsers, array_or_empty.
  split; [|split; [|split; reflexivity]].
  - split.
    + body_cases d; array_cases; auto; discriminate.
    + intros [-> | ->]; reflexivity.
  - intros Hu Hn. split.
    + body_cases d; array_cases; congruence.
    + body_cases d; array_cases; eauto; congruence.
Qed.

(** X13.  Every list getter unwraps the envelope
    [{ success: true, data: [...] }] to its array and returns a body that is
    itself an array as it is. *)
Theorem getters_unwrap_envelope (d : value number) (items : list (value number)) :
  is_envelope number number_truthy true d items \/ d = VArray items ->
  getUsers number number_truthy d = Some (VArray items) /\
  getReturns number number_truthy d = Some (VArray items) /\
  getReturnsAdmin number number_truthy d = Some (VArray items) /\
  getSalesSummary_result number number_truthy d = Some (VArray items) /\
  getBanners number number_truthy d = Some (VArray items) /\
  getFooterSettings d = Some (VArray items) /\
  getDiningTables d = Some (VArray items) /\
  getAllComments number number_truthy d = Some (VArray items).
Proof.
  unfold getUsers, getReturns, getReturnsAdmin, getSalesSummary_result, getBanners,
    getFooterSettings, getDiningTables, getAllComments, array_or_empty.
  intros [(fields & success & -> & Hs & Ht & Hd) | ->].
  - cbn. rewrite Hs, Hd. cbn. rewrite Ht. cbn. repeat split; reflexivity.
  - cbn. repeat split; reflexivity.
Qed.

(** X14.  [getFooterSettings] looks for the innermost array first and
    [getDiningTables] for the outermost, and yet they return the same array
    for every body. *)
Theorem getFooterSettings_getDiningTables (d : value number) :
  getFooterSettings d = getDiningTables d.
Proof.
  unfold getFooterSettings, getDiningTables.
  body_cases d; array_cases; try reflexivity; try discriminate.
Qed.

(** X15.  A failed envelope [{ success: false, data: [...] }] is read in two
    ways: the getters that test [success] drop its array and return the
    empty one, the getters that only look for an array return its array. *)
Theorem getters_on_failed_envelope (d : value number) (items : list (value number)) :
  is_envelope number number_truthy false d items ->
  (getUsers number number_truthy d = Some (VArray []) /\
   getReturns number number_truthy d = Some (VArray []) /\
   getReturnsAdmin number number_truthy d = Some (VArray []) /\
   getSalesSummary_result number number_truthy d = Some (VArray []) /\
   getBanners number number_truthy d = Some (VArray [])) /\
  (getFooterSettings d = Some (VArray items) /\
   getDiningTables d = Some (VArray items) /\
   getAllComments number number_truthy d = Some (VArray items)).
Proof.
  unfold getUsers, getReturns, getReturnsAdmin, getSalesSummary_result, getBanners,
    getFooterSettings, getDiningTables, getAllComments, array_or_empty.
  intros (fields & success & -> & Hs & Ht & Hd).
  cbn. rewrite Hs, Hd. cbn. rewrite Ht. cbn. repeat split; reflexivity.
Qed.

End ResponseProperties.

(** A sales summary in its envelope, with integers for numbers. *)
Lemma getters_unwrap_envelope_witness :
  getSalesSummary_result Z (fun n => negb (n =? 0))
    (VObject (<["success" := VBool true]>
                (<["data" := VArray [VNumber 3; VNumber 4]]> ∅)))
  = Some (VArray [VNumber 3; VNumber 4]).
Proof.
  apply (getters_unwrap_envelope (fun n => negb (n =? 0))).
  left. exists (<["success" := VBool true]>
                 (<["data" := VArray [VNumber 3; VNumber 4]]> ∅)), (VBool true).
  repeat split; reflexivity.
Defined.

(** A failed envelope, with integers for numbers. *)
Lemma getters_on_failed_envelope_witness :
  getUsers Z (fun n => negb (n =? 0))
    (VObject (<["success" := VBool false]> (<["data" := VArray [VNumber 3]]> ∅)))
  = Some (VArray []).
Proof.
  apply (getters_on_failed_envelope (fun n => negb (n =? 0)) _ [VNumber 3]).
  exists (<["success" := VBool false]> (<["data" := VArray [VNumber 3]]> ∅)), (VBool false).
  repeat split; reflexivity.
Defined.

(** ** Token checks *)

Lemma trimStart_head (s : list N) :
  trimStart s = [] \/ exists c r, trimStart s = c :: r /\ is_js_whitespace c = false.
Proof.
  induction s as [|c s IH]; [left; reflexivity|].
  cbn [trimStart]. destruct (is_js_whitespace c) eqn:Hc; [exact IH|].
  right. exists c, s. auto.
Qed.

Lemma trim_nil_whitespace (t : list N) : trim t = [] <-> all_whitespace t.
Proof.
  unfold trim. split.
  - intros H. unfold trimEnd in H.
    apply (f_equal (@rev N)) in H. rewrite rev_involutive in H. cbn [rev] in H.
    apply trimStart_nil_whitespace in H.
    destruct (trimStart_head t) as [Hnil | (c & r & Hcr & Hc)].
    + apply trimStart_nil_whitespace, Hnil.
    + exfalso. rewrite Hcr in H. unfold all_whitespace in H.
      apply List.Forall_rev in H. rewrite rev_involutive in H.
      apply Forall_cons in H as [H _]. congruence.
  - intros H. rewrite trimStart_whitespace by exact H. reflexivity.
Qed.

Lemma trim_not_empty_spec (t : list N) :
  trim_not_empty t = true <-> ~ all_whitespace t.
Proof.
  unfold trim_not_empty. rewrite negb_true_iff, bool_decide_eq_false.
  rewrite trim_nil_whitespace. reflexivity.
Qed.

Lemma differs_spec (t : list N) (lit : string) : differs t lit = true <-> t <> js lit.
Proof. unfold differs. rewrite negb_true_iff, bool_decide_eq_false. reflexivity. Qed.

(** X16.  The four token tests of the panel (the auth store's
    [isValidToken] and the request interceptor, response interceptor and
    constructor of the API service) accept the same tokens: those that are
    present, are not white space only, and are not the texts "undefined" or
    "null". *)
Theorem token_checks_agree (token : option (list N)) :
  (isValidToken token = true <->
     exists t, token = Some t /\ ~ all_whitespace t /\
               t <> js "undefined" /\ t <> js "null") /\
  hasToken token = isValidToken token /\
  latestToken token = (if isValidToken token then token else None).
Proof.
  split; [|split].
  - destruct token as [t|]; cbn.
    + rewrite !andb_true_iff, trim_not_empty_spec, !differs_spec. split.
      * intros [[[_ Hw] Hu] Hn]. exists t. auto.
      * intros (t' & [= <-] & Hw & Hu & Hn).
        repeat split; try assumption.
        destruct t; [|reflexivity]. exfalso. apply Hw. constructor.
    + split; [discriminate|]. intros (t & Ht & _). discriminate.
  - destruct token as [t|]; [|reflexivity]. cbn.
    destruct t, (trim_not_empty _), (differs _ "undefined"), (differs _ "null");
      reflexivity.
  - destruct token as [t|]; [|reflexivity]. cbn.
    destruct t, (trim_not_empty _), (differs _ "undefined"), (differs _ "null");
      reflexivity.
Qed.

(** X17.  The tokens that [ApiService.login] stores although the auth store
    then refuses them are exactly the texts "undefined" and "null"; the
    request interceptor reads neither of them back as a token. *)
Theorem login_stores_refused_token (t : list N) :
  (login_stores (Some t) = true /\ isValidToken (Some t) = false <->
     t = js "undefined" \/ t = js "null") /\
  latestToken (Some (js "undefined")) = None /\
  latestToken (Some (js "null")) = None.
Proof.
  split; [|split; vm_compute; reflexivity].
  split.
  - cbn. intros [Hs Hv]. rewrite Hs in Hv. cbn in Hv.
    apply andb_false_iff in Hv as [Hv | Hv];
      unfold differs in Hv; rewrite negb_false_iff, bool_decide_eq_true in Hv; auto.
  - intros [-> | ->]; split; vm_compute; reflexivity.
Qed.
